(** * Campaign agent: the campaign-generation pipeline of [src/lib/agent.ts]

    A shallow embedding of [buildStrategy], [buildAssets], [buildCalendar],
    [toCalendarCsv], [buildIcs] and [buildExportBundle], with the JavaScript
    string primitives and the part of the [dayjs] API they rely on.

    Conventions of the embedding.
    - A JavaScript string is a [string]: a sequence of 8-bit characters.
      The regular expressions of the source mention ASCII letters and
      digits only. Case conversion is the one of ASCII text, on which
      [toLowerCase] and [toUpperCase] change the letters [A-Z] and [a-z]
      and nothing else; the Unicode case mapping of other characters is
      not modelled, and the theorems whose subject is the case mapping
      itself are stated for ASCII text ([JS.is_ascii]).
    - A [number] holding a count of days or an index is a [Z] or a [nat].
    - A JavaScript exception is the [Throw] case of [Result].
    - [dayjs] runs in the UTC time zone: an instant is a number of
      milliseconds since the epoch, a day has 86 400 000 of them. The
      program imports the core of [dayjs] and registers no plugin.
    - [new URL(...)] and its [searchParams] belong to the platform: they
      are the interface [UrlApi]. *)

From Stdlib Require Import ZArith Lia Ascii String List DecimalString.
From stdpp Require Import gmap strings list fin_maps.

Local Open Scope Z_scope.

(** ** Exceptions *)

Inductive exn := TypeError | RangeError.

Inductive Result (A : Type) :=
  | Ok (a : A)
  | Throw (e : exn).
Arguments Ok {A} a.
Arguments Throw {A} e.

#[export] Instance Result_ret : MRet Result := fun A a => Ok a.
#[export] Instance Result_bind : MBind Result := fun A B f r =>
  match r with
  | Ok a => f a
  | Throw e => Throw e
  end.
#[export] Instance Result_fmap : FMap Result := fun A B f r =>
  match r with
  | Ok a => Ok (f a)
  | Throw e => Throw e
  end.

(** ** JavaScript strings and arrays *)

Module JS.

(** The line feed, written [\n] in the source. *)
Definition nl : string := String "010" EmptyString.
(** The double quote. *)
Definition dq : string := String "034" EmptyString.

Definition is_upper (c : ascii) : bool :=
  let n := nat_of_ascii c in (65 <=? n)%nat && (n <=? 90)%nat.
Definition is_lower (c : ascii) : bool :=
  let n := nat_of_ascii c in (97 <=? n)%nat && (n <=? 122)%nat.
Definition is_digit (c : ascii) : bool :=
  let n := nat_of_ascii c in (48 <=? n)%nat && (n <=? 57)%nat.

Definition lower_char (c : ascii) : ascii :=
  if is_upper c then ascii_of_nat (nat_of_ascii c + 32) else c.
Definition upper_char (c : ascii) : ascii :=
  if is_lower c then ascii_of_nat (nat_of_ascii c - 32) else c.

(** A letter [A-Z] or [a-z], or a digit. *)
Definition is_alnum (c : ascii) : bool := is_upper c || is_lower c || is_digit c.

(** ASCII text: every character is below 128. *)
Definition is_ascii_char (c : ascii) : bool := (nat_of_ascii c <? 128)%nat.

Fixpoint is_ascii (s : string) : bool :=
  match s with
  | EmptyString => true
  | String c r => is_ascii_char c && is_ascii r
  end.

(** [s.toLowerCase()] on ASCII text: the letters [A-Z] become [a-z].
    Characters outside ASCII are left as they are, where the built-in
    follows the Unicode case mapping. *)
Fixpoint toLowerCase (s : string) : string :=
  match s with
  | EmptyString => EmptyString
  | String c r => String (lower_char c) (toLowerCase r)
  end.

(** [s.includes(sub)] *)
Fixpoint includes (sub s : string) : bool :=
  String.prefix sub s ||
  match s with
  | EmptyString => false
  | String _ r => includes sub r
  end.

(** [s.replace(/c/g, by)] for a one-character pattern [c]. *)
Fixpoint replace_char (c : ascii) (by_ : string) (s : string) : string :=
  match s with
  | EmptyString => EmptyString
  | String a r =>
      if Ascii.eqb a c then by_ +:+ replace_char c by_ r
      else String a (replace_char c by_ r)
  end.

(** [s.replace(/[P]+/g, by)]: every maximal run of characters in the
    class [P] becomes one [by]. [in_run] tells that the previous
    character was in the class. *)
Fixpoint replace_runs (P : ascii → bool) (by_ : string) (in_run : bool)
    (s : string) : string :=
  match s with
  | EmptyString => EmptyString
  | String a r =>
      if P a then
        (if in_run then replace_runs P by_ true r
         else by_ +:+ replace_runs P by_ true r)
      else String a (replace_runs P by_ false r)
  end.

(** Removal of one trailing [c]: the alternative [c$] of a pattern. *)
Fixpoint drop_last_char (c : ascii) (s : string) : string :=
  match s with
  | EmptyString => EmptyString
  | String a EmptyString => if Ascii.eqb a c then EmptyString else s
  | String a r => String a (drop_last_char c r)
  end.

(** [s.replace(/(^c|c$)/g, '')]: one leading and one trailing [c]. *)
Definition strip_ends (c : ascii) (s : string) : string :=
  match s with
  | EmptyString => EmptyString
  | String a r =>
      if Ascii.eqb a c then drop_last_char c r
      else drop_last_char c s
  end.

(** [s.slice(0, n)] *)
Definition slice0 (n : nat) (s : string) : string := String.substring 0 n s.

(** [s.match(/lit/i)] as a truth value, for a lower-case literal [lit]. *)
Definition match_ci (lit s : string) : bool := includes lit (toLowerCase s).

(** [arr.join(sep)] *)
Fixpoint join (sep : string) (l : list string) : string :=
  match l with
  | [] => EmptyString
  | [x] => x
  | x :: r => x +:+ sep +:+ join sep r
  end.

(** [arr.includes(x)] on an array of strings. *)
Definition arr_includes (x : string) (l : list string) : bool :=
  bool_decide (x ∈ l).

(** A value spliced into a template literal: [undefined] prints as
    the word. *)
Definition splice (o : option string) : string :=
  match o with
  | Some s => s
  | None => "undefined"
  end.

(** The truth value of an optional string: [undefined] and the empty
    string are falsy. *)
Definition truthy (o : option string) : bool :=
  match o with
  | Some EmptyString | None => false
  | Some _ => true
  end.

(** [String(n)] for an integer. *)
Definition of_Z (n : Z) : string := NilZero.string_of_int (Z.to_int n).
Definition of_nat (n : nat) : string := NilZero.string_of_uint (Nat.to_uint n).

(** [s.padStart(w, '0')] *)
Definition padStart0 (w : nat) (s : string) : string :=
  String.concat EmptyString (repeat "0" (w - String.length s)) +:+ s.

End JS.


(** ** The [dayjs] library, in the UTC time zone *)

Module Dayjs.

Definition MS_SECOND : Z := 1000.
Definition MS_MINUTE : Z := 60000.
Definition MS_HOUR : Z := 3600000.
Definition MS_DAY : Z := 86400000.

(** The largest time value of a JavaScript [Date]. *)
Definition LIMIT : Z := 8640000000000000.

Definition in_range (ms : Z) : bool := (- LIMIT <=? ms) && (ms <=? LIMIT).

(** A [Dayjs] object: its time value, or [None] for an invalid date. *)
Definition t : Type := option Z.

Definition mk (ms : Z) : t := if in_range ms then Some ms else None.

(** *** The civil calendar

    Day number (days since 1970-01-01) to proleptic Gregorian year,
    month (1..12) and day of month, and back, over 400-year eras that
    start on 1 March. *)

Definition civil_from_days (z : Z) : Z * Z * Z :=
  let z := z + 719468 in
  let era := z / 146097 in
  let doe := z - era * 146097 in
  let yoe := (doe - doe / 1460 + doe / 36524 - doe / 146096) / 365 in
  let doy := doe - (365 * yoe + yoe / 4 - yoe / 100) in
  let mp := (5 * doy + 2) / 153 in
  let d := doy - (153 * mp + 2) / 5 + 1 in
  let m := if mp <? 10 then mp + 3 else mp - 9 in
  let y := yoe + era * 400 in
  (if m <=? 2 then y + 1 else y, m, d).

Definition days_from_civil (y m d : Z) : Z :=
  let y := if m <=? 2 then y - 1 else y in
  let era := y / 400 in
  let yoe := y - era * 400 in
  let mp := if 2 <? m then m - 3 else m + 9 in
  let doy := (153 * mp + 2) / 5 + d - 1 in
  let doe := yoe * 365 + yoe / 4 - yoe / 100 + doy in
  era * 146097 + doe - 719468.

(** The fields of an instant. *)
Definition day_of (ms : Z) : Z := ms / MS_DAY.
Definition hour_of (ms : Z) : Z := (ms mod MS_DAY) / MS_HOUR.
Definition minute_of (ms : Z) : Z := ((ms mod MS_DAY) / MS_MINUTE) mod 60.
Definition second_of (ms : Z) : Z := ((ms mod MS_DAY) / MS_SECOND) mod 60.
Definition milli_of (ms : Z) : Z := ms mod 1000.
Definition year_of (ms : Z) : Z := (civil_from_days (day_of ms)).1.1.
Definition month_of (ms : Z) : Z := (civil_from_days (day_of ms)).1.2.
Definition date_of (ms : Z) : Z := (civil_from_days (day_of ms)).2.

(** *** Decimal fields *)

Definition digit (d : Z) : ascii := ascii_of_N (48 + Z.to_N d).

Definition digit_value (c : ascii) : option Z :=
  let n := Z.of_N (N_of_ascii c) in
  if (48 <=? n) && (n <=? 57) then Some (n - 48) else None.

(** The [w] low decimal digits of [n], most significant first. *)
Fixpoint digits (w : nat) (n : Z) : string :=
  match w with
  | O => EmptyString
  | S w' => String (digit ((n / 10 ^ Z.of_nat w') mod 10)) (digits w' n)
  end.

(** Reads [w] decimal digits off the front of [s]. *)
Fixpoint take_digits (w : nat) (acc : Z) (s : string) : option (Z * string) :=
  match w with
  | O => Some (acc, s)
  | S w' =>
      match s with
      | EmptyString => None
      | String c r =>
          match digit_value c with
          | Some d => take_digits w' (acc * 10 + d) r
          | None => None
          end
      end
  end.

Definition expect (c : ascii) (s : string) : option string :=
  match s with
  | String a r => if Ascii.eqb a c then Some r else None
  | EmptyString => None
  end.

(** *** ISO 8601, as [Date.prototype.toISOString] writes it *)

(** Four digits for the years 0 to 9999, a sign and six digits
    otherwise. *)
Definition year_string (y : Z) : string :=
  if (0 <=? y) && (y <=? 9999) then digits 4 y
  else if y <? 0 then String "-" (digits 6 (- y))
  else String "+" (digits 6 y).

Definition iso (ms : Z) : string :=
  year_string (year_of ms) +:+ "-" +:+ digits 2 (month_of ms) +:+ "-" +:+
  digits 2 (date_of ms) +:+ "T" +:+ digits 2 (hour_of ms) +:+ ":" +:+
  digits 2 (minute_of ms) +:+ ":" +:+ digits 2 (second_of ms) +:+ "." +:+
  digits 3 (milli_of ms) +:+ "Z".

(** [d.toISOString()]: a [RangeError] on an invalid date. *)
Definition toISOString (d : t) : Result string :=
  match d with
  | Some ms => if in_range ms then Ok (iso ms) else Throw RangeError
  | None => Throw RangeError
  end.

Definition take_year (s : string) : option (Z * string) :=
  match s with
  | String c r =>
      if Ascii.eqb c "+" then take_digits 6 0 r
      else if Ascii.eqb c "-" then
        '(y, r') ← take_digits 6 0 r;
        if y =? 0 then None else Some (- y, r')
      else take_digits 4 0 s
  | EmptyString => None
  end.

(** The fields name a day of the calendar when they are the fields of
    the day they denote. *)
Definition civil_ok (y m d : Z) : bool :=
  let '(y', m', d') := civil_from_days (days_from_civil y m d) in
  (y' =? y) && (m' =? m) && (d' =? d).

(** [dayjs(s)] for a string [s]. A string that ends in [Z] is handed to
    the platform's [Date]; the model reads the date-time format above,
    which is the one [toISOString] writes and so the one of every date
    [buildCalendar] stores, and takes any other text for an invalid
    date. The library reads more forms (a date alone, a time without
    milliseconds): the model is the library's function on what
    [toISOString] writes and on nothing else. The filter of
    [buildCalendar] parses only dates that [push] wrote; [buildIcs]
    parses the date of an event and raises before it reads the
    instant. *)
Definition parse (s : string) : t :=
  '(y, s) ← take_year s;
  s ← expect "-" s;
  '(m, s) ← take_digits 2 0 s;
  s ← expect "-" s;
  '(d, s) ← take_digits 2 0 s;
  s ← expect "T" s;
  '(h, s) ← take_digits 2 0 s;
  s ← expect ":" s;
  '(mi, s) ← take_digits 2 0 s;
  s ← expect ":" s;
  '(sec, s) ← take_digits 2 0 s;
  s ← expect "." s;
  '(f, s) ← take_digits 3 0 s;
  s ← expect "Z" s;
  match s with
  | EmptyString =>
      if civil_ok y m d && (h <? 24) && (mi <? 60) && (sec <? 60) then
        mk (days_from_civil y m d * MS_DAY + h * MS_HOUR + mi * MS_MINUTE
            + sec * MS_SECOND + f)
      else None
  | _ => None
  end.

(** [d.utc()]. The method belongs to the library's UTC plugin, which a
    program has to register with [dayjs.extend]. This program imports
    [dayjs] alone and registers nothing, so its instances have no
    property [utc]: the call is a call of [undefined] and raises a
    [TypeError], whatever the instance is. *)
Definition utc (d : t) : Result t := Throw TypeError.

(** [d.startOf('day')] *)
Definition startOf_day (d : t) : t :=
  ms ← d; Some (ms - ms mod MS_DAY).

(** [d.add(n, 'day')] and [d.add(n, 'hour')] *)
Definition add_day (n : Z) (d : t) : t := ms ← d; mk (ms + n * MS_DAY).
Definition add_hour (n : Z) (d : t) : t := ms ← d; mk (ms + n * MS_HOUR).

(** [a.diff(b, 'day')]: whole days, rounded towards zero; [None] is
    [NaN]. *)
Definition diff_day (a b : t) : option Z :=
  x ← a; y ← b; Some (Z.quot (x - y) MS_DAY).

(** [NaN <= days] is false. *)
Definition le_number (o : option Z) (n : Z) : bool :=
  match o with
  | Some k => k <=? n
  | None => false
  end.

(** [d.format('YYYYMMDD[T]HHmmss[Z]')] *)
Definition format_basic (d : t) : string :=
  match d with
  | None => "Invalid Date"
  | Some ms =>
      JS.padStart0 4 (JS.of_Z (year_of ms)) +:+
      JS.padStart0 2 (JS.of_Z (month_of ms)) +:+
      JS.padStart0 2 (JS.of_Z (date_of ms)) +:+ "T" +:+
      JS.padStart0 2 (JS.of_Z (hour_of ms)) +:+
      JS.padStart0 2 (JS.of_Z (minute_of ms)) +:+
      JS.padStart0 2 (JS.of_Z (second_of ms)) +:+ "Z"
  end.

End Dayjs.

(** ** The platform's [URL] *)

(** [URL_new s] is [new URL(s)]: [None] when the constructor throws
    because [s] is not an absolute URL. [searchParams_set k v u] is the
    URL after [u.searchParams.set(k, v)], [searchParams_get u k] reads a
    query parameter, [URL_toString] serialises. *)
Class UrlApi := {
  URL : Type;
  URL_new : string → option URL;
  searchParams_set : string → string → URL → URL;
  searchParams_get : URL → string → option string;
  URL_toString : URL → string;
  searchParams_get_set_eq : ∀ u k v,
    searchParams_get (searchParams_set k v u) k = Some v;
  searchParams_get_set_ne : ∀ u k k' v,
    k ≠ k' → searchParams_get (searchParams_set k v u) k' = searchParams_get u k';
}.

(** ** Data model *)

Module Plan.
Record t := mk {
  objective : string;
  strategy : string;
  kpis : list string;
}.
End Plan.

Module Email.
Record t := mk {
  subject : string;
  preview : string;
  body : string;
}.
End Email.

Module Social.
Record t := mk {
  channel : string;
  text : string;
}.
End Social.

Module CalendarEvent.
Record t := mk {
  date : string;
  channel : string;
  title : string;
  notes : string;
}.
End CalendarEvent.

Record CampaignInput := {
  goal : string;
  productName : string;
  productDescription : string;
  audience : string;
  tone : string;
  channels : list string;
  budget : Z;
  startDate : Dayjs.t;
  durationDays : Z;
  landingUrl : option string;
}.

(** [channelsPlan] is a JavaScript object used as a map: a key holds
    [None] when the value stored under it is [undefined]. *)
Record Strategy := {
  primaryMessage : string;
  valueProps : list string;
  personaSummary : string;
  channelsPlan : gmap string (option Plan.t);
}.

Record Assets := {
  headlines : list string;
  adCopy : list string;
  emails : list Email.t;
  social : list Social.t;
}.

Record Csv := { calendar_csv : string }.

Record ExportBundle := {
  bundle_input : CampaignInput;
  bundle_strategy : Strategy;
  bundle_assets : Assets;
  bundle_calendar : list CalendarEvent.t;
  ics : string;
  csv : Csv;
}.

Record UtmParams := {
  source : string;
  medium : string;
  campaign : string;
  content : option string;
}.

(** ** Strategy builder *)

(** [s.charAt(0).toUpperCase() + s.slice(1)], with the upper case of
    ASCII text: a first character outside ASCII is left as it is, where
    the built-in follows the Unicode case mapping. *)
Definition sentenceCase (s : string) : string :=
  match s with
  | EmptyString => EmptyString
  | String c r => String (JS.upper_char c) r
  end.

(** The object literal [base] of [buildStrategy]. *)
Definition base : gmap string Plan.t :=
  list_to_map [
    ("Website", Plan.mk "Convert qualified traffic"
       "Update hero, add social proof, launch comparison page"
       ["Signup rate"; "Bounce rate"]);
    ("Email", Plan.mk "Nurture and activate"
       "3-email sequence: insight, case study, offer"
       ["Open rate"; "CTR"; "Activations"]);
    ("LinkedIn", Plan.mk "Educate and build trust"
       "Founder POV, carousel explainer, customer quote"
       ["Impressions"; "Engagement rate"]);
    ("X/Twitter", Plan.mk "Spark conversation"
       "Thread on problem framing + micro-demos"
       ["Replies"; "Profile visits"]);
    ("Instagram", Plan.mk "Show product visually"
       "Short reels of ?before/after? analytics moments"
       ["Views"; "Saves"]);
    ("Ads", Plan.mk "Capture demand"
       "Search on intent + retargeting with proof"
       ["CPC"; "CVR"])
  ].

Definition buildStrategy (input : CampaignInput) : Strategy :=
  let valueProps := [
    "Set up in minutes, not weeks";
    "Privacy-first by design";
    "Crystal-clear funnels and cohort analysis";
    "Actionable AI insights, not vanity metrics"
  ] in
  let personaSummary :=
    "For " +:+ audience input +:+ ". They seek outcomes: " +:+
    sentenceCase (goal input) +:+
    ". They value credibility, proof, and time-to-value. Tone: " +:+
    tone input +:+ "." in
  let channelsPlan :=
    fold_left (fun plan ch => <[ch := base !! ch]> plan) (channels input) ∅ in
  let primaryMessage :=
    productName input +:+ ": " +:+ sentenceCase (tone input) +:+
    " solution to " +:+ JS.toLowerCase (goal input) +:+ " for " +:+
    JS.toLowerCase (audience input) +:+ "." in
  {| primaryMessage := primaryMessage;
     valueProps := valueProps;
     personaSummary := personaSummary;
     channelsPlan := channelsPlan |}.

(** ** Asset generator *)

Definition bullets (strings : list string) : string :=
  JS.join JS.nl (map (fun s => "? " +:+ s) strings).

Definition buildAssets (input : CampaignInput) (strategy : Strategy) : Assets :=
  let brand := productName input in
  let headlines := [
    brand +:+ " ? " +:+ sentenceCase (goal input);
    "From guesswork to growth with " +:+ brand;
    brand +:+ ": analytics that turns insight into action"
  ] in
  let adCopy := [
    brand +:+ " helps " +:+ JS.toLowerCase (audience input) +:+ " " +:+
      JS.toLowerCase (goal input) +:+ ". " +:+
      JS.splice (valueProps strategy !! 2%nat) +:+ ". Start in minutes.";
    "Stop drowning in dashboards. " +:+ brand +:+
      " surfaces what moves the needle. " +:+
      JS.splice (valueProps strategy !! 3%nat) +:+ "."
  ] in
  let emails := [
    Email.mk
      (brand +:+ " in 3 minutes: see what matters")
      "A quick walkthrough and a real case study"
      ("Hi there," +:+ JS.nl +:+ JS.nl +:+
       "If analytics feels noisy, you're not alone. " +:+ brand +:+
       " focuses on outcomes." +:+ JS.nl +:+ JS.nl +:+
       "Why teams switch:" +:+ JS.nl +:+ bullets (valueProps strategy) +:+
       JS.nl +:+ JS.nl +:+
       "Want a 3-minute walkthrough? Reply with " +:+ JS.dq +:+ "demo" +:+
       JS.dq +:+ " and I?ll share a short video." +:+ JS.nl +:+ JS.nl +:+
       "Best," +:+ JS.nl +:+ brand +:+ " Team");
    Email.mk
      ("How " +:+ brand +:+ " users improved activation by 24%")
      "A simple cohort insight changed their onboarding"
      ("Quick story: a SaaS team found a 24% activation lift after seeing a drop-off cohort at Day 2. They added an in-app nudge based on our insight." +:+
       JS.nl +:+ JS.nl +:+ "It took an afternoon. Results stuck." +:+
       JS.nl +:+ JS.nl +:+
       "Curious what your data says? Happy to take a look and share a 1-pager.")
  ] in
  let social := [] in
  let social :=
    if JS.arr_includes "LinkedIn" (channels input) then
      social ++ [Social.mk "LinkedIn"
        ("Most analytics tools show everything. " +:+ brand +:+
         " shows what matters. " +:+ JS.splice (valueProps strategy !! 3%nat) +:+
         ". " +:+ primaryMessage strategy)]
    else social in
  let social :=
    if JS.arr_includes "X/Twitter" (channels input) then
      social ++ [Social.mk "X/Twitter"
        ("Funnels, cohorts, activation. Keep it simple. " +:+ brand +:+
         " ? outcomes > dashboards. #saas #growth")]
    else social in
  let social :=
    if JS.arr_includes "Instagram" (channels input) then
      social ++ [Social.mk "Instagram"
        ("Before ? drowning in charts. After ? one insight, one action. " +:+
         brand +:+ ".")]
    else social in
  {| headlines := headlines; adCopy := adCopy; emails := emails;
     social := social |}.

(** ** Calendar scheduler *)

Definition is_slug_char (c : ascii) : bool := JS.is_lower c || JS.is_digit c.

Definition slugify (s : string) : string :=
  JS.slice0 60
    (JS.strip_ends "-"
       (JS.replace_runs (fun c => negb (is_slug_char c)) "-" false
          (JS.toLowerCase s))).

(** [e.p] when [e] may be [undefined]. *)
Definition prop {A B : Type} (e : option A) (p : A → B) : Result B :=
  match e with
  | Some a => Ok (p a)
  | None => Throw TypeError
  end.

(** [arr.forEach] with a callback that updates a state and may throw. *)
Fixpoint forEach {A S : Type} (f : S → A → Result S) (l : list A) (s : S)
    : Result S :=
  match l with
  | [] => Ok s
  | x :: r => s' ← f s x; forEach f r s'
  end.

Section WithUrl.
Context {U : UrlApi}.

Definition buildUtmUrl (baseUrl : string) (params : UtmParams) : string :=
  match URL_new baseUrl with
  | Some u =>
      let u := searchParams_set "utm_source" (source params) u in
      let u := searchParams_set "utm_medium" (medium params) u in
      let u := searchParams_set "utm_campaign" (campaign params) u in
      let u :=
        if JS.truthy (content params) then
          searchParams_set "utm_content" (JS.splice (content params)) u
        else u in
      URL_toString u
  | None => baseUrl
  end.

Definition utm_medium (channel : string) : string :=
  if JS.match_ci "email" channel then "email"
  else if JS.match_ci "ads" channel then "cpc"
  else "social".

(** The notes of an event, with the UTM link when there is one. *)
Definition fullNotes (input : CampaignInput) (channel title notes : string)
    : string :=
  if JS.truthy (landingUrl input) && negb (String.eqb channel "Website") then
    let link := buildUtmUrl (JS.splice (landingUrl input))
      {| source := JS.toLowerCase channel;
         medium := utm_medium channel;
         campaign := slugify (goal input);
         content := Some (slugify title) |} in
    notes +:+ JS.nl +:+ "Link: " +:+ link
  else notes.

(** The closure [push] of [buildCalendar]; the array [events] it
    appends to is passed in and returned. *)
Definition push (input : CampaignInput) (start : Dayjs.t)
    (events : list CalendarEvent.t) (offset : Z)
    (channel title notes : string) : Result (list CalendarEvent.t) :=
  let fullNotes := fullNotes input channel title notes in
  date ← Dayjs.toISOString (Dayjs.add_day offset start);
  Ok (events ++ [CalendarEvent.mk date channel title fullNotes]).

(** The events of [buildCalendar] before the final [filter]. *)
Definition generateEvents (input : CampaignInput) (strategy : Strategy)
    (assets : Assets) : Result (list CalendarEvent.t) :=
  let start := Dayjs.startOf_day (startDate input) in
  let push := push input start in
  events ← push [] 0 "Website" "Hero + proof update" "Add headline and 3 logos";
  '(events, day) ←
    forEach (fun '(events, day) p =>
               events ← push events day (Social.channel p) "Social post"
                           (Social.text p);
               Ok (events, day + 2))
            (social assets) (events, 1);
  events ←
    (if JS.arr_includes "Email" (channels input) then
       subject0 ← prop (emails assets !! 0%nat) Email.subject;
       preview0 ← prop (emails assets !! 0%nat) Email.preview;
       events ← push events 2 "Email" subject0 preview0;
       subject1 ← prop (emails assets !! 1%nat) Email.subject;
       preview1 ← prop (emails assets !! 1%nat) Email.preview;
       push events 9 "Email" subject1 preview1
     else Ok events);
  events ←
    (if JS.arr_includes "Ads" (channels input) then
       push events 1 "Ads" "Launch search + retargeting"
         "Focus on high-intent terms"
     else Ok events);
  push events 7 "LinkedIn" "Carousel: what we learned" "Founder POV, 5 slides".

(** The predicate of the final [filter]. *)
Definition within (start : Dayjs.t) (days : Z) (ev : CalendarEvent.t) : bool :=
  Dayjs.le_number
    (Dayjs.diff_day (Dayjs.parse (CalendarEvent.date ev)) start) days.

Definition buildCalendar (input : CampaignInput) (strategy : Strategy)
    (assets : Assets) : Result (list CalendarEvent.t) :=
  let start := Dayjs.startOf_day (startDate input) in
  let days := durationDays input in
  events ← generateEvents input strategy assets;
  Ok (List.filter (within start days) events).

End WithUrl.

(** ** Export serializer *)

Definition csvEscape (value : string) : string :=
  if JS.includes JS.dq value || JS.includes "," value || JS.includes JS.nl value
  then JS.dq +:+ JS.replace_char "034" (JS.dq +:+ JS.dq) value +:+ JS.dq
  else value.

Definition toCalendarCsv (events : list CalendarEvent.t) : string :=
  let header := ["date"; "channel"; "title"; "notes"] in
  let lines := [JS.join "," header] in
  let lines :=
    fold_left (fun lines ev =>
      lines ++ [JS.join ","
        (map csvEscape [CalendarEvent.date ev; CalendarEvent.channel ev;
                        CalendarEvent.title ev; CalendarEvent.notes ev])])
      events lines in
  JS.join JS.nl lines.

(** The callback of [events.forEach] in [buildIcs]: the lines one event
    adds to the calendar file. Its first statement calls [utc]. *)
Definition vevent (idx : nat) (ev : CalendarEvent.t) : Result (list string) :=
  dt ← Dayjs.utc (Dayjs.parse (CalendarEvent.date ev));
  let dtStart := Dayjs.format_basic dt in
  let dtEnd := Dayjs.format_basic (Dayjs.add_hour 1 dt) in
  Ok [ "BEGIN:VEVENT";
       "UID:" +:+ JS.of_nat idx +:+ "-" +:+ dtStart +:+ "@campaign-agent";
       "DTSTAMP:" +:+ dtStart;
       "DTSTART:" +:+ dtStart;
       "DTEND:" +:+ dtEnd;
       "SUMMARY:" +:+ CalendarEvent.channel ev +:+ ": " +:+
         CalendarEvent.title ev;
       "DESCRIPTION:" +:+ JS.replace_char "010" " " (CalendarEvent.notes ev);
       "END:VEVENT" ].

Definition buildIcs (events : list CalendarEvent.t) : Result string :=
  let lines := [
    "BEGIN:VCALENDAR";
    "VERSION:2.0";
    "PRODID:-//Campaign Agent//EN"
  ] in
  '(lines, _) ←
    forEach (fun '(lines, idx) ev =>
               block ← vevent idx ev;
               Ok (lines ++ block, S idx))
            events (lines, O);
  let lines := lines ++ ["END:VCALENDAR"] in
  Ok (JS.join JS.nl lines).

(** The fields of the object literal are evaluated in the order in which
    they are written: an exception of [buildIcs] is the exception of
    [buildExportBundle]. *)
Definition buildExportBundle (input : CampaignInput) (strategy : Strategy)
    (assets : Assets) (calendar : list CalendarEvent.t) : Result ExportBundle :=
  ics ← buildIcs calendar;
  Ok {| bundle_input := input;
        bundle_strategy := strategy;
        bundle_assets := assets;
        bundle_calendar := calendar;
        ics := ics;
        csv := {| calendar_csv := toCalendarCsv calendar |} |}.

(** ** The schedule, as the specification words it

    The specification describes the calendar as a fixed list of slots,
    each a day offset from the start of the campaign with a channel, a
    title and notes. [spec_schedule] follows that description; the
    theorems below compare it with [buildCalendar]. *)

Record Slot := {
  offset : Z;
  slot_channel : string;
  slot_title : string;
  slot_notes : string;
}.

Definition spec_schedule (input : CampaignInput) (assets : Assets) : list Slot :=
  [ {| offset := 0; slot_channel := "Website";
       slot_title := "Hero + proof update";
       slot_notes := "Add headline and 3 logos" |} ]
  ++ imap (fun i p =>
             {| offset := 1 + 2 * Z.of_nat i; slot_channel := Social.channel p;
                slot_title := "Social post"; slot_notes := Social.text p |})
          (social assets)
  ++ (if bool_decide ("Email" ∈ channels input) then
        match emails assets with
        | e0 :: e1 :: _ =>
            [ {| offset := 2; slot_channel := "Email";
                 slot_title := Email.subject e0;
                 slot_notes := Email.preview e0 |};
              {| offset := 9; slot_channel := "Email";
                 slot_title := Email.subject e1;
                 slot_notes := Email.preview e1 |} ]
        | _ => []
        end
      else [])
  ++ (if bool_decide ("Ads" ∈ channels input) then
        [ {| offset := 1; slot_channel := "Ads";
             slot_title := "Launch search + retargeting";
             slot_notes := "Focus on high-intent terms" |} ]
      else [])
  ++ [ {| offset := 7; slot_channel := "LinkedIn";
          slot_title := "Carousel: what we learned";
          slot_notes := "Founder POV, 5 slides" |} ].

(** Midnight of the start date. *)
Definition start_of (ms : Z) : Z := ms - ms mod Dayjs.MS_DAY.

(** The event a slot stands for, in a campaign that starts at [start]. *)
Definition event_of {U : UrlApi} (input : CampaignInput) (start : Z) (sl : Slot)
    : CalendarEvent.t :=
  CalendarEvent.mk
    (Dayjs.iso (start + offset sl * Dayjs.MS_DAY))
    (slot_channel sl) (slot_title sl)
    (fullNotes input (slot_channel sl) (slot_title sl) (slot_notes sl)).

(** The UTM link, as the specification words it: the landing URL with
    [utm_source] the lower-cased channel, [utm_medium] [email], [cpc] or
    [social], [utm_campaign] the slug of the goal and [utm_content] the
    slug of the title. [spec_utm_campaign_url] stops before
    [utm_content]. *)
Definition spec_utm_medium (channel : string) : string :=
  if JS.match_ci "email" channel then "email"
  else if JS.match_ci "ads" channel then "cpc"
  else "social".

Definition spec_utm_campaign_url {U : UrlApi} (u : URL)
    (goal_ channel : string) : URL :=
  searchParams_set "utm_campaign" (slugify goal_)
    (searchParams_set "utm_medium" (spec_utm_medium channel)
       (searchParams_set "utm_source" (JS.toLowerCase channel) u)).

Definition spec_utm_url {U : UrlApi} (u : URL)
    (goal_ channel title : string) : URL :=
  searchParams_set "utm_content" (slugify title)
    (spec_utm_campaign_url u goal_ channel).

(** The four parameters of a UTM link. *)
Definition utm_keys : list string :=
  ["utm_source"; "utm_medium"; "utm_campaign"; "utm_content"].

(** The inputs on which every step of [buildCalendar] is defined: the
    date of every slot is a valid date, and the two e-mails exist when
    the e-mail channel asks for them. [buildCalendar] returns a calendar
    on these inputs and throws on the others ([buildCalendar_returns]). *)
Definition schedulable_at (ms : Z) (input : CampaignInput) (assets : Assets)
    : bool :=
  forallb (fun sl => Dayjs.in_range (start_of ms + offset sl * Dayjs.MS_DAY))
    (spec_schedule input assets)
  && (if bool_decide ("Email" ∈ channels input)
      then (2 <=? length (emails assets))%nat else true).

Definition schedulable (input : CampaignInput) (assets : Assets) : Prop :=
  ∃ ms, startDate input = Some ms ∧ schedulable_at ms input assets = true.

(** The six channels of the vocabulary. *)
Definition vocabulary : list string :=
  ["Website"; "Email"; "LinkedIn"; "X/Twitter"; "Instagram"; "Ads"].

(** Text utilities used to state properties of the exports. *)

(** The text has a letter or digit that a slug keeps. *)
Fixpoint has_slug_char (s : string) : bool :=
  match s with
  | EmptyString => false
  | String c r => is_slug_char c || has_slug_char r
  end.

Fixpoint last_char (s : string) : option ascii :=
  match s with
  | EmptyString => None
  | String c EmptyString => Some c
  | String _ r => last_char r
  end.

(** A line that ends a text: not empty, and not ended by a line feed. *)
Definition ends_a_text (s : string) : Prop :=
  ∃ c, last_char s = Some c ∧ c ≠ "010"%char.

(** The number of places at which [sub] occurs in [s]. *)
Fixpoint count_occurrences (sub s : string) : nat :=
  (if String.prefix sub s then 1 else 0)%nat +
  match s with
  | EmptyString => 0%nat
  | String _ r => count_occurrences sub r
  end.

(** The lines of a text: its pieces between line feeds. *)
Fixpoint text_lines (cur : string) (s : string) : list string :=
  match s with
  | EmptyString => [cur]
  | String c r =>
      if Ascii.eqb c "010" then cur :: text_lines EmptyString r
      else text_lines (cur +:+ String c EmptyString) r
  end.

(** ** A small implementation of the URL interface

    Used to run the pipeline on concrete inputs: an absolute URL starts
    with [http://] or [https://]; the query is kept as an association
    list. *)

Module SimpleUrl.

Definition url : Type := string * list (string * string).

Definition new (s : string) : option url :=
  if String.prefix "http://" s || String.prefix "https://" s
  then Some (s, []) else None.

Fixpoint assoc_set (k v : string) (l : list (string * string))
    : list (string * string) :=
  match l with
  | [] => [(k, v)]
  | (k', v') :: r =>
      if String.eqb k' k then (k, v) :: r else (k', v') :: assoc_set k v r
  end.

Fixpoint assoc_get (l : list (string * string)) (k : string) : option string :=
  match l with
  | [] => None
  | (k', v') :: r => if String.eqb k' k then Some v' else assoc_get r k
  end.

Definition set (k v : string) (u : url) : url := (u.1, assoc_set k v u.2).
Definition get (u : url) (k : string) : option string := assoc_get u.2 k.

Definition toString (u : url) : string :=
  match u.2 with
  | [] => u.1
  | ps => u.1 +:+ "?" +:+ JS.join "&" (map (fun p => p.1 +:+ "=" +:+ p.2) ps)
  end.

(** The interface, with its two laws of reading after writing. *)
#[export] Instance api : UrlApi.
Proof.
  refine {| URL := url; URL_new := new; searchParams_set := set;
            searchParams_get := get; URL_toString := toString |}.
  - intros [b l] k v. unfold get, set. cbn [fst snd].
    induction l as [| [k' v'] r IH]; cbn [assoc_set assoc_get].
    + now rewrite String.eqb_refl.
    + destruct (String.eqb k' k) eqn:E; cbn [assoc_get].
      * now rewrite String.eqb_refl.
      * now rewrite E.
  - intros [b l] k k' v Hne. unfold get, set. cbn [fst snd].
    induction l as [| [k0 v0] r IH]; cbn [assoc_set assoc_get].
    + destruct (String.eqb_spec k k'); [contradiction | reflexivity].
    + destruct (String.eqb_spec k0 k) as [-> | Hk]; cbn [assoc_get].
      * destruct (String.eqb_spec k k'); [contradiction | reflexivity].
      * destruct (String.eqb_spec k0 k'); [reflexivity | exact IH].
Defined.

End SimpleUrl.

(** ** Sample inputs *)

(** The end-to-end scenario of the specification; the fields it leaves
    open are arguments. *)
Definition acme (description audience_ tone_ : string) (budget_ : Z)
    : CampaignInput :=
  {| goal := "Increase signups by 30% in 30 days";
     productName := "Acme Analytics";
     productDescription := description;
     audience := audience_;
     tone := tone_;
     channels := ["Website"; "Email"];
     budget := budget_;
     startDate := Dayjs.parse "2024-01-01T00:00:00.000Z";
     durationDays := 14;
     landingUrl := Some EmptyString |}.

(** A one-week campaign with no channel requested. *)
Definition one_week : CampaignInput :=
  {| goal := "Grow"; productName := "Acme"; productDescription := EmptyString;
     audience := "teams"; tone := "clear"; channels := [];
     budget := 0; startDate := Dayjs.parse "2024-01-01T00:00:00.000Z";
     durationDays := 7; landingUrl := None |}.

(** All six channels, with a landing page. *)
Definition full_launch : CampaignInput :=
  {| goal := "Increase signups by 30% in 30 days";
     productName := "Acme Analytics";
     productDescription := "A privacy-first analytics platform";
     audience := "SaaS founders"; tone := "confident";
     channels := vocabulary;
     budget := 5000; startDate := Dayjs.parse "2024-01-01T00:00:00.000Z";
     durationDays := 21; landingUrl := Some "https://acme.example/start" |}.

(** An e-mail campaign with a landing page, and assets written by hand:
    the subject of the first e-mail is made of punctuation. *)
Definition email_launch : CampaignInput :=
  {| goal := "Grow"; productName := "Acme"; productDescription := EmptyString;
     audience := "teams"; tone := "clear"; channels := ["Email"];
     budget := 0; startDate := Dayjs.parse "2024-01-01T00:00:00.000Z";
     durationDays := 14; landingUrl := Some "https://acme.example/start" |}.

Definition hand_written : Assets :=
  {| headlines := []; adCopy := [];
     emails := [ Email.mk "!!!" "Open me" "Hello";
                 Email.mk "Last call" "Two days left" "Hello again" ];
     social := [] |}.

(** ** The form of [src/app/page.tsx]: channel selection *)

(** The state [form] of the component [CampaignAgent]; every field is
    what the form holds, text for the numbers and the date too. *)
Record Form := {
  form_goal : string;
  form_productName : string;
  form_productDescription : string;
  form_audience : string;
  form_tone : string;
  form_channels : list string;
  form_budget : string;
  form_startDate : string;
  form_durationDays : string;
  form_landingUrl : string;
}.

(** The channels with a button in the form. *)
Definition defaultChannels : list string :=
  ["Website"; "Email"; "LinkedIn"; "X/Twitter"; "Instagram"; "Ads"].

(** The update of the form that [onToggleChannel] asks [setForm] for. *)
Definition onToggleChannel (channel : string) (f : Form) : Form :=
  let exists_ := JS.arr_includes channel (form_channels f) in
  {| form_goal := form_goal f;
     form_productName := form_productName f;
     form_productDescription := form_productDescription f;
     form_audience := form_audience f;
     form_tone := form_tone f;
     form_channels :=
       if exists_ then
         List.filter (fun c => negb (String.eqb c channel)) (form_channels f)
       else form_channels f ++ [channel];
     form_budget := form_budget f;
     form_startDate := form_startDate f;
     form_durationDays := form_durationDays f;
     form_landingUrl := form_landingUrl f |}.

(** The form when the component is mounted; [today] is the date of
    that day, which [dayjs().format('YYYY-MM-DD')] gives. *)
Definition initial_form (today : string) : Form :=
  {| form_goal := "Increase signups by 30% in 30 days";
     form_productName := "Acme Analytics";
     form_productDescription :=
       "A privacy-first analytics platform for SaaS with funnels, cohorts, and AI insights.";
     form_audience :=
       "SaaS founders and growth teams at early to mid-stage startups";
     form_tone := "Confident, clear, value-oriented";
     form_channels := ["Website"; "Email"; "LinkedIn"; "X/Twitter"];
     form_budget := "5000";
     form_startDate := today;
     form_durationDays := "21";
     form_landingUrl := EmptyString |}.

(** The form after a sequence of clicks on channel buttons. *)
Definition after_clicks (clicks : list string) (f : Form) : Form :=
  fold_left (fun f c => onToggleChannel c f) clicks f.

(** ** Reading the exports back

    A reader of comma-separated values in the manner of RFC 4180, with
    the line feed as the end of a record: a field that starts with a
    double quote runs to the next double quote that is not doubled. It
    is the reference against which the CSV export is read back. *)

Inductive csv_mode := FieldStart | Bare | Quoted | QuoteSeen.

Fixpoint read_csv_from (mode : csv_mode) (rows : list (list string))
    (row : list string) (field : string) (s : string) : list (list string) :=
  match s with
  | EmptyString => rows ++ [row ++ [field]]
  | String c r =>
      let one := String c EmptyString in
      match mode with
      | Quoted =>
          if Ascii.eqb c "034" then read_csv_from QuoteSeen rows row field r
          else read_csv_from Quoted rows row (field +:+ one) r
      | QuoteSeen =>
          if Ascii.eqb c "034" then
            read_csv_from Quoted rows row (field +:+ one) r
          else if Ascii.eqb c "," then
            read_csv_from FieldStart rows (row ++ [field]) EmptyString r
          else if Ascii.eqb c "010" then
            read_csv_from FieldStart (rows ++ [row ++ [field]]) [] EmptyString r
          else read_csv_from Bare rows row (field +:+ one) r
      | FieldStart | Bare =>
          if Ascii.eqb c "," then
            read_csv_from FieldStart rows (row ++ [field]) EmptyString r
          else if Ascii.eqb c "010" then
            read_csv_from FieldStart (rows ++ [row ++ [field]]) [] EmptyString r
          else
            match mode with
            | FieldStart =>
                if Ascii.eqb c "034" then read_csv_from Quoted rows row field r
                else read_csv_from Bare rows row (field +:+ one) r
            | _ => read_csv_from Bare rows row (field +:+ one) r
            end
      end
  end.

Definition read_csv (s : string) : list (list string) :=
  read_csv_from FieldStart [] [] EmptyString s.

(** The characters of a slug. *)
Definition is_slug_or_hyphen (c : ascii) : bool :=
  is_slug_char c || Ascii.eqb c "-".

(** No two hyphens in a row. *)
Fixpoint no_double_hyphen (s : string) : bool :=
  match s with
  | String a (String b _ as r) =>
      negb (Ascii.eqb a "-" && Ascii.eqb b "-") && no_double_hyphen r
  | _ => true
  end.

(** The first character of a text. *)
Definition first_char (s : string) : option ascii :=
  match s with
  | String c _ => Some c
  | EmptyString => None
  end.

(** The number of occurrences of a character. *)
Fixpoint count_char (c : ascii) (s : string) : nat :=
  match s with
  | EmptyString => 0%nat
  | String a r => ((if Ascii.eqb a c then 1 else 0) + count_char c r)%nat
  end.

(** * Properties *)

(** ** Strings *)

Lemma append_String c s r : String c s +:+ r = String c (s +:+ r).
Proof. reflexivity. Qed.

Lemma append_nil_l s : EmptyString +:+ s = s.
Proof. reflexivity. Qed.

(** ** Dates: what [toISOString] writes, [dayjs] reads back *)

Module DayjsFacts.
Import Dayjs.

Lemma doy_bounds doe :
0 <= doe <= 146096 ->
let yoe := (doe - doe / 1460 + doe / 36524 - doe / 146096) / 365 in
0 <= yoe <= 399 /\ 0 <= doe - (365 * yoe + yoe / 4 - yoe / 100) <= 365.
Proof.
intros Hd yoe. subst yoe.
Z.to_euclidean_division_equations; lia.
Qed.

Lemma civil_fields z :
let '(y, m, d) := civil_from_days z in
1 <= m <= 12 /\ 1 <= d <= 31 /\ days_from_civil y m d = z.
Proof.
unfold civil_from_days.
set (z' := z + 719468).
set (era := z' / 146097).
set (doe := z' - era * 146097).
assert (Hdoe : 0 <= doe <= 146096).
{ subst doe era. Z.to_euclidean_division_equations; lia. }
pose proof (doy_bounds doe Hdoe) as Hb. cbv zeta in Hb.
set (yoe := (doe - doe / 1460 + doe / 36524 - doe / 146096) / 365) in *.
set (doy := doe - (365 * yoe + yoe / 4 - yoe / 100)) in *.
destruct Hb as [Hyoe Hdoy].
set (mp := (5 * doy + 2) / 153).
assert (Hmp : 0 <= mp <= 11).
{ subst mp. Z.to_euclidean_division_equations; lia. }
set (d := doy - (153 * mp + 2) / 5 + 1).
assert (Hd : 1 <= d <= 31).
{ subst d mp. Z.to_euclidean_division_equations; lia. }
unfold days_from_civil.
destruct (Z.ltb_spec mp 10) as [Hlt | Hge].
- destruct (Z.leb_spec (mp + 3) 2); [lia |].
  destruct (Z.ltb_spec 2 (mp + 3)); [| lia].
  replace (mp + 3 - 3) with mp by lia.
  replace ((yoe + era * 400) / 400) with era
    by (Z.to_euclidean_division_equations; lia).
  replace (yoe + era * 400 - era * 400) with yoe by lia.
  repeat split; lia.
- destruct (Z.leb_spec (mp - 9) 2); [| lia].
  destruct (Z.ltb_spec 2 (mp - 9)); [lia |].
  replace (mp - 9 + 9) with mp by lia.
  replace (yoe + era * 400 + 1 - 1) with (yoe + era * 400) by lia.
  replace ((yoe + era * 400) / 400) with era
    by (Z.to_euclidean_division_equations; lia).
  replace (yoe + era * 400 - era * 400) with yoe by lia.
  repeat split; lia.
Qed.

Lemma digit_value_digit d : 0 <= d < 10 -> digit_value (digit d) = Some d.
Proof.
intros Hd. unfold digit_value, digit.
rewrite N_ascii_embedding by lia.
destruct (Z.leb_spec 48 (Z.of_N (48 + Z.to_N d))); [| lia].
destruct (Z.leb_spec (Z.of_N (48 + Z.to_N d)) 57); [| lia].
simpl. f_equal. lia.
Qed.

Lemma digit_not_sign c d :
digit_value c = Some d -> Ascii.eqb c "+" = false /\ Ascii.eqb c "-" = false.
Proof.
intros Hc. split.
- destruct (Ascii.eqb_spec c "+") as [-> |]; [discriminate | reflexivity].
- destruct (Ascii.eqb_spec c "-") as [-> |]; [discriminate | reflexivity].
Qed.

Lemma take_digits_digits w : forall n acc rest,
take_digits w acc (digits w n +:+ rest)
= Some (acc * 10 ^ Z.of_nat w + n mod 10 ^ Z.of_nat w, rest).
Proof.
induction w as [| w IH]; intros n acc rest.
- simpl. rewrite Z.mod_1_r. do 2 f_equal. lia.
- cbn [digits]. rewrite append_String. cbn [take_digits].
  rewrite digit_value_digit by (apply Z.mod_pos_bound; lia).
  rewrite IH. do 2 f_equal.
  rewrite Nat2Z.inj_succ, Z.pow_succ_r by lia.
  rewrite (Z.mul_comm 10), Z.rem_mul_r by lia.
  lia.
Qed.

Lemma take_digits_small w n acc rest :
0 <= n < 10 ^ Z.of_nat w ->
take_digits w acc (digits w n +:+ rest) = Some (acc * 10 ^ Z.of_nat w + n, rest).
Proof.
intros Hn. rewrite take_digits_digits, Z.mod_small by exact Hn. reflexivity.
Qed.

Lemma take_year_string y rest :
-1000000 < y < 1000000 ->
take_year (year_string y +:+ rest) = Some (y, rest).
Proof.
intros Hy. unfold year_string.
destruct (Z.leb_spec 0 y) as [H0 | H0]; cbn [andb].
- destruct (Z.leb_spec y 9999) as [H1 | H1].
  + pose proof (take_digits_small 4 y 0 rest) as Ht.
    change (10 ^ Z.of_nat 4) with 10000 in Ht.
    specialize (Ht ltac:(lia)).
    cbn [digits] in *. rewrite append_String in *.
    unfold take_year.
    pose proof (digit_value_digit ((y / 10 ^ Z.of_nat 3) mod 10)
                  ltac:(apply Z.mod_pos_bound; lia)) as Hd.
    apply digit_not_sign in Hd as [-> ->].
    rewrite Ht. reflexivity.
  + destruct (Z.ltb_spec y 0); [lia |].
    rewrite append_String. unfold take_year.
    change (Ascii.eqb "+" "+") with true. cbv iota.
    rewrite take_digits_small by (change (10 ^ Z.of_nat 6) with 1000000; lia).
    reflexivity.
- destruct (Z.ltb_spec y 0); [| lia].
  rewrite append_String. unfold take_year.
  change (Ascii.eqb "-" "+") with false.
  change (Ascii.eqb "-" "-") with true. cbv iota.
  rewrite take_digits_small by (change (10 ^ Z.of_nat 6) with 1000000; lia).
  cbn [mbind option_bind]. rewrite Z.mul_0_l, Z.add_0_l.
  destruct (Z.eqb_spec (- y) 0); [lia |].
  do 2 f_equal. lia.
Qed.

Lemma expect_String c rest : expect c (String c rest) = Some rest.
Proof. unfold expect. now rewrite Ascii.eqb_refl. Qed.

Lemma parse_fields y m d h mi sec f :
-1000000 < y < 1000000 -> 0 <= m < 100 -> 0 <= d < 100 -> 0 <= h < 100 ->
0 <= mi < 100 -> 0 <= sec < 100 -> 0 <= f < 1000 ->
parse (year_string y +:+ "-" +:+ digits 2 m +:+ "-" +:+ digits 2 d +:+ "T" +:+
       digits 2 h +:+ ":" +:+ digits 2 mi +:+ ":" +:+ digits 2 sec +:+ "." +:+
       digits 3 f +:+ "Z")
= if civil_ok y m d && (h <? 24) && (mi <? 60) && (sec <? 60) then
    mk (days_from_civil y m d * MS_DAY + h * MS_HOUR + mi * MS_MINUTE
        + sec * MS_SECOND + f)
  else None.
Proof.
intros Hy Hm Hd Hh Hmi Hs Hf. unfold parse.
rewrite take_year_string by exact Hy. cbn [mbind option_bind].
rewrite ?append_String, ?append_nil_l, expect_String. cbn [mbind option_bind].
rewrite take_digits_small by (change (10 ^ Z.of_nat 2) with 100; lia).
cbn [mbind option_bind].
rewrite ?append_String, ?append_nil_l, expect_String. cbn [mbind option_bind].
rewrite take_digits_small by (change (10 ^ Z.of_nat 2) with 100; lia).
cbn [mbind option_bind].
rewrite ?append_String, ?append_nil_l, expect_String. cbn [mbind option_bind].
rewrite take_digits_small by (change (10 ^ Z.of_nat 2) with 100; lia).
cbn [mbind option_bind].
rewrite ?append_String, ?append_nil_l, expect_String. cbn [mbind option_bind].
rewrite take_digits_small by (change (10 ^ Z.of_nat 2) with 100; lia).
cbn [mbind option_bind].
rewrite ?append_String, ?append_nil_l, expect_String. cbn [mbind option_bind].
rewrite take_digits_small by (change (10 ^ Z.of_nat 2) with 100; lia).
cbn [mbind option_bind].
rewrite ?append_String, ?append_nil_l, expect_String. cbn [mbind option_bind].
rewrite take_digits_small by (change (10 ^ Z.of_nat 3) with 1000; lia).
cbn [mbind option_bind].
rewrite expect_String. cbn [mbind option_bind].
rewrite !Z.mul_0_l, !Z.add_0_l. reflexivity.
Qed.

Lemma year_bound z :
-100000000 <= z <= 100000000 -> -1000000 < (civil_from_days z).1.1 < 1000000.
Proof.
intros Hz. unfold civil_from_days.
set (z' := z + 719468).
set (era := z' / 146097).
set (doe := z' - era * 146097).
assert (Hdoe : 0 <= doe <= 146096).
{ subst doe era. Z.to_euclidean_division_equations; lia. }
pose proof (doy_bounds doe Hdoe) as Hb. cbv zeta in Hb.
set (yoe := (doe - doe / 1460 + doe / 36524 - doe / 146096) / 365) in *.
destruct Hb as [Hyoe _].
assert (-690 <= era <= 690).
{ subst era z'. Z.to_euclidean_division_equations; lia. }
cbn [fst snd].
destruct (_ <=? 2); lia.
Qed.

Lemma in_range_spec ms : in_range ms = true <-> - LIMIT <= ms <= LIMIT.
Proof. unfold in_range. rewrite andb_true_iff, !Z.leb_le. reflexivity. Qed.

(** Reading back what [toISOString] wrote gives the instant. *)
Lemma parse_iso ms : in_range ms = true -> parse (iso ms) = Some ms.
Proof.
intros Hr. pose proof Hr as Hr'. apply in_range_spec in Hr'. unfold LIMIT in Hr'.
unfold iso, year_of, month_of, date_of.
pose proof (civil_fields (day_of ms)) as Hc.
pose proof (year_bound (day_of ms)) as Hy.
destruct (civil_from_days (day_of ms)) as [[y m] d] eqn:E.
cbn [fst snd] in *.
destruct Hc as (Hm & Hd & Hback).
assert (Hday : -100000000 <= day_of ms <= 100000000).
{ unfold day_of, MS_DAY. Z.to_euclidean_division_equations; lia. }
specialize (Hy Hday).
assert (Hh : 0 <= hour_of ms < 24).
{ unfold hour_of, MS_DAY, MS_HOUR. Z.to_euclidean_division_equations; lia. }
assert (Hmi : 0 <= minute_of ms < 60) by (apply Z.mod_pos_bound; lia).
assert (Hs : 0 <= second_of ms < 60) by (apply Z.mod_pos_bound; lia).
assert (Hf : 0 <= milli_of ms < 1000) by (apply Z.mod_pos_bound; lia).
rewrite parse_fields by lia.
unfold civil_ok. rewrite Hback, E, !Z.eqb_refl. cbn [andb].
destruct (Z.ltb_spec (hour_of ms) 24); [| lia].
destruct (Z.ltb_spec (minute_of ms) 60); [| lia].
destruct (Z.ltb_spec (second_of ms) 60); [| lia].
cbn [andb].
replace (_ + _ + _ + _ + _) with ms.
- unfold mk. now rewrite Hr.
- unfold day_of, hour_of, minute_of, second_of, milli_of,
    MS_DAY, MS_HOUR, MS_MINUTE, MS_SECOND.
  Z.to_euclidean_division_equations; lia.
Qed.

End DayjsFacts.

(** ** The calendar *)

Lemma filter_map_comm {A B : Type} (f : A → B) (P : B → bool) (l : list A) :
  List.filter P (map f l) = map f (List.filter (fun a => P (f a)) l).
Proof.
  induction l as [| a l IH]; [reflexivity |].
  cbn [map List.filter]. destruct (P (f a)); cbn [map]; now rewrite IH.
Qed.

Lemma filter_ext_in' {A : Type} (P Q : A → bool) (l : list A) :
  (∀ a, In a l → P a = Q a) → List.filter P l = List.filter Q l.
Proof.
  induction l as [| a l IH]; intros HPQ; [reflexivity |].
  cbn [List.filter]. rewrite (HPQ a) by now left.
  rewrite IH by (intros; apply HPQ; now right). reflexivity.
Qed.

Section CalendarFacts.
Context {U : UrlApi}.
Import Dayjs DayjsFacts.

(** One call of [push]: the event is appended when its date is a valid
    date, and [toISOString] throws otherwise. *)
Lemma push_eq input s events k ch title notes :
  push input (Some s) events k ch title notes
  = if in_range (s + k * MS_DAY)
    then Ok (events ++ [event_of input s
                          {| offset := k; slot_channel := ch;
                             slot_title := title; slot_notes := notes |}])
    else Throw RangeError.
Proof.
  unfold push, add_day, toISOString, mk. cbn [mbind option_bind].
  destruct (in_range (s + k * MS_DAY)) eqn:E; [rewrite E |]; reflexivity.
Qed.

Lemma push_invalid input events k ch title notes :
  push input None events k ch title notes = Throw RangeError.
Proof. reflexivity. Qed.

(** The loop over the social posts. *)
Lemma forEach_social_eq input s : ∀ (l : list Social.t) events day,
  forEach (fun '(events, day) p =>
             events ← push input (Some s) events day (Social.channel p)
                         "Social post" (Social.text p);
             Ok (events, day + 2))
          l (events, day)
  = let slots :=
      imap (fun i p =>
              {| offset := day + 2 * Z.of_nat i;
                 slot_channel := Social.channel p;
                 slot_title := "Social post";
                 slot_notes := Social.text p |}) l in
    if forallb (fun sl => in_range (s + offset sl * MS_DAY)) slots
    then Ok (events ++ map (event_of input s) slots,
             day + 2 * Z.of_nat (length l))
    else Throw RangeError.
Proof.
  induction l as [| p l IH]; intros events day.
  - cbn. rewrite app_nil_r. do 2 f_equal. lia.
  - cbn [forEach]. rewrite push_eq. cbv zeta. rewrite imap_cons.
    cbn [forallb offset]. replace (day + 2 * Z.of_nat 0) with day by lia.
    destruct (in_range (s + day * MS_DAY)); [| reflexivity].
    cbn [mbind Result_bind andb]. rewrite IH. cbv zeta.
    rewrite (imap_ext (_ ∘ S) (fun i p0 =>
               {| offset := day + 2 + 2 * Z.of_nat i;
                  slot_channel := Social.channel p0;
                  slot_title := "Social post";
                  slot_notes := Social.text p0 |}) l)
      by (intros i x _; cbn; f_equal; lia).
    destruct (forallb _ _); [| reflexivity].
    cbn [map]. rewrite <- app_assoc. cbn [app length].
    do 2 f_equal. lia.
Qed.

(** [generateEvents] returns the events of the schedule, in order, on
    the schedulable inputs, and throws on the others. *)
Lemma generateEvents_cases input strategy assets ms :
  startDate input = Some ms →
  match generateEvents input strategy assets with
  | Ok events =>
      schedulable_at ms input assets = true ∧
      events = map (event_of input (start_of ms)) (spec_schedule input assets)
  | Throw _ => schedulable_at ms input assets = false
  end.
Proof.
  intros Hstart. unfold generateEvents, schedulable_at, spec_schedule.
  rewrite Hstart. change (startOf_day (Some ms)) with (Some (start_of ms)).
  cbv zeta. unfold JS.arr_includes.
  rewrite !forallb_app, !map_app. cbn [forallb offset map app].
  rewrite push_eq.
  destruct (in_range (start_of ms + 0 * MS_DAY)); [| reflexivity].
  cbn [mbind Result_bind andb app]. rewrite forEach_social_eq. cbv zeta.
  set (socials := imap _ (social assets)).
  destruct (forallb _ socials); [| reflexivity].
  cbn [mbind Result_bind andb].
  destruct (bool_decide ("Email" ∈ channels input)).
  - destruct (emails assets) as [| e0 [| e1 es]].
    + cbn [lookup list_lookup prop mbind Result_bind].
      cbn. now rewrite !andb_false_r.
    + cbn [lookup list_lookup prop mbind Result_bind]. rewrite push_eq.
      destruct (in_range (start_of ms + 2 * MS_DAY));
        cbn; now rewrite !andb_false_r.
    + cbn [lookup list_lookup prop mbind Result_bind forallb offset map].
      rewrite push_eq.
      destruct (in_range (start_of ms + 2 * MS_DAY)); [| reflexivity].
      cbn [mbind Result_bind andb]. rewrite push_eq.
      destruct (in_range (start_of ms + 9 * MS_DAY)); [| reflexivity].
      cbn [mbind Result_bind andb].
      destruct (bool_decide ("Ads" ∈ channels input));
        cbn [mbind Result_bind forallb offset map andb]; rewrite ?push_eq.
      * destruct (in_range (start_of ms + 1 * MS_DAY)); [| reflexivity].
        cbn [mbind Result_bind andb]. rewrite push_eq.
        destruct (in_range (start_of ms + 7 * MS_DAY)); [| reflexivity].
        split; [reflexivity |]. cbn [app].
        rewrite <- ?app_assoc. reflexivity.
      * destruct (in_range (start_of ms + 7 * MS_DAY)); [| reflexivity].
        split; [reflexivity |]. cbn [app].
        rewrite <- ?app_assoc. reflexivity.
  - cbn [mbind Result_bind forallb map andb].
    destruct (bool_decide ("Ads" ∈ channels input));
      cbn [mbind Result_bind forallb offset map andb]; rewrite ?push_eq.
    + destruct (in_range (start_of ms + 1 * MS_DAY)); [| reflexivity].
      cbn [mbind Result_bind andb]. rewrite push_eq.
      destruct (in_range (start_of ms + 7 * MS_DAY)); [| reflexivity].
      split; [reflexivity |]. cbn [app].
      rewrite <- ?app_assoc. reflexivity.
    + destruct (in_range (start_of ms + 7 * MS_DAY)); [| reflexivity].
      split; [reflexivity |]. cbn [app].
      rewrite <- ?app_assoc. reflexivity.
Qed.

Lemma generateEvents_ok input strategy assets ms :
  startDate input = Some ms → schedulable_at ms input assets = true →
  generateEvents input strategy assets
  = Ok (map (event_of input (start_of ms)) (spec_schedule input assets)).
Proof.
  intros Hstart Hsch.
  pose proof (generateEvents_cases input strategy assets ms Hstart) as Hc.
  destruct (generateEvents input strategy assets) as [events | e].
  - destruct Hc as [_ ->]. reflexivity.
  - congruence.
Qed.

Lemma generateEvents_invalid_start input strategy assets :
  startDate input = None →
  generateEvents input strategy assets = Throw RangeError.
Proof. intros Hstart. unfold generateEvents. now rewrite Hstart. Qed.

(** The schedulable inputs are those on which [generateEvents], and so
    [buildCalendar], returns. *)
Lemma generateEvents_returns input strategy assets :
  (∃ events, generateEvents input strategy assets = Ok events)
  ↔ schedulable input assets.
Proof.
  split.
  - intros [events Hev]. destruct (startDate input) as [ms |] eqn:Hstart.
    + exists ms. split; [exact Hstart |].
      pose proof (generateEvents_cases input strategy assets ms Hstart) as Hc.
      rewrite Hev in Hc. apply Hc.
    + rewrite generateEvents_invalid_start in Hev by exact Hstart.
      discriminate.
  - intros (ms & Hstart & Hsch). eexists.
    now apply (generateEvents_ok _ _ _ ms).
Qed.

Lemma schedule_offsets input assets sl :
  sl ∈ spec_schedule input assets → 0 <= offset sl.
Proof.
  unfold spec_schedule. rewrite !elem_of_app, elem_of_lookup_imap.
  intros [Hin | [(i & p & -> & Hi) | [Hin | [Hin | Hin]]]].
  - apply list_elem_of_singleton in Hin as ->. cbn. lia.
  - cbn. lia.
  - destruct (bool_decide _); [| now apply elem_of_nil in Hin].
    destruct (emails assets) as [| e0 [| e1 es]];
      try now apply elem_of_nil in Hin.
    apply elem_of_cons in Hin as [-> | Hin]; [cbn; lia |].
    apply list_elem_of_singleton in Hin as ->. cbn. lia.
  - destruct (bool_decide _); [| now apply elem_of_nil in Hin].
    apply list_elem_of_singleton in Hin as ->. cbn. lia.
  - apply list_elem_of_singleton in Hin as ->. cbn. lia.
Qed.

Lemma schedulable_at_dates ms input assets sl :
  schedulable_at ms input assets = true → sl ∈ spec_schedule input assets →
  in_range (start_of ms + offset sl * MS_DAY) = true.
Proof.
  unfold schedulable_at. intros [Hall _]%andb_true_iff Hin.
  rewrite forallb_forall in Hall. apply Hall. now apply list_elem_of_In.
Qed.

Lemma event_of_parse input s sl :
  in_range (s + offset sl * MS_DAY) = true →
  parse (CalendarEvent.date (event_of input s sl))
  = Some (s + offset sl * MS_DAY).
Proof. intros Hr. unfold event_of. cbn [CalendarEvent.date]. now apply parse_iso. Qed.

(** On a generated event the predicate of the final [filter] compares
    the slot's offset with the duration. *)
Lemma within_event_of input s days sl :
  in_range (s + offset sl * MS_DAY) = true →
  within (Some s) days (event_of input s sl) = (offset sl <=? days).
Proof.
  intros Hr. unfold within. rewrite event_of_parse by exact Hr.
  unfold diff_day. cbn [mbind option_bind].
  replace (s + offset sl * MS_DAY - s) with (offset sl * MS_DAY) by lia.
  rewrite Z.quot_mul by (unfold MS_DAY; lia).
  reflexivity.
Qed.

(** [buildCalendar] returns the slots whose offset is at most the
    duration, in the order of the schedule. *)
Lemma buildCalendar_ok input strategy assets ms :
  startDate input = Some ms → schedulable_at ms input assets = true →
  buildCalendar input strategy assets
  = Ok (map (event_of input (start_of ms))
          (List.filter (fun sl => offset sl <=? durationDays input)
             (spec_schedule input assets))).
Proof.
  intros Hstart Hsch. unfold buildCalendar.
  rewrite (generateEvents_ok input strategy assets ms Hstart Hsch).
  cbn [mbind Result_bind]. f_equal.
  rewrite Hstart. change (startOf_day (Some ms)) with (Some (start_of ms)).
  rewrite filter_map_comm. f_equal.
  apply filter_ext_in'. intros sl Hin. apply within_event_of.
  apply (schedulable_at_dates ms input assets); [exact Hsch |].
  now apply list_elem_of_In.
Qed.

Lemma buildCalendar_returns input strategy assets :
  (∃ events, buildCalendar input strategy assets = Ok events)
  ↔ schedulable input assets.
Proof.
  rewrite <- (generateEvents_returns input strategy assets).
  unfold buildCalendar.
  destruct (generateEvents input strategy assets) as [events | e];
    cbn [mbind Result_bind].
  - split; intros _; eexists; reflexivity.
  - split; intros [events H]; discriminate.
Qed.

End CalendarFacts.
(** ** Claims about the calendar *)

Section CalendarClaims.
Context {U : UrlApi}.
Import Dayjs DayjsFacts.


(** C3, as amended. On a valid input the output of [buildCalendar] is
    made of the generated events whose date lies in the closed interval
    from the start of the first day to [durationDays] days later, both
    ends included; the other generated events are dropped, and no date
    is changed. *)
Theorem C3_dates_in_closed_window input strategy assets ms :
  startDate input = Some ms → schedulable_at ms input assets = true →
  ∃ generated kept,
    generateEvents input strategy assets = Ok generated ∧
    buildCalendar input strategy assets = Ok kept ∧
    ∀ ev, ev ∈ kept ↔
      ev ∈ generated ∧
      ∃ t, parse (CalendarEvent.date ev) = Some t ∧
           start_of ms <= t <= start_of ms + durationDays input * MS_DAY.
Proof.
  intros Hstart Hsch.
  exists (map (event_of input (start_of ms)) (spec_schedule input assets)).
  eexists. split; [apply (generateEvents_ok _ _ _ ms); assumption |].
  split; [apply (buildCalendar_ok _ _ _ ms); assumption |].
  intros ev. rewrite !list_elem_of_In, !in_map_iff. split.
  - intros (sl & <- & Hin). apply filter_In in Hin as [Hin Hle].
    apply Z.leb_le in Hle. apply list_elem_of_In in Hin.
    pose proof (schedule_offsets input assets sl Hin) as Hoff.
    pose proof (schedulable_at_dates ms input assets sl Hsch Hin) as Hr.
    split; [exists sl; split; [reflexivity | now apply list_elem_of_In] |].
    exists (start_of ms + offset sl * MS_DAY).
    split; [now apply event_of_parse |].
    unfold MS_DAY. lia.
  - intros [(sl & <- & Hin) (t & Ht & Hlo & Hhi)].
    apply list_elem_of_In in Hin.
    pose proof (schedulable_at_dates ms input assets sl Hsch Hin) as Hr.
    rewrite event_of_parse in Ht by exact Hr. injection Ht as <-.
    exists sl. split; [reflexivity |].
    apply filter_In. split; [now apply list_elem_of_In |].
    apply Z.leb_le. unfold MS_DAY in Hhi. lia.
Qed.

End CalendarClaims.

(** C3, as stated, fails: in a campaign of seven days the LinkedIn event
    of day 7 is kept, and its date is the end of the half-open window. *)
Lemma C3_counterexample :
  ∃ kept ev s t,
    startDate one_week = Some s ∧
    buildCalendar (U := SimpleUrl.api) one_week (buildStrategy one_week)
      (buildAssets one_week (buildStrategy one_week)) = Ok kept ∧
    ev ∈ kept ∧
    Dayjs.parse (CalendarEvent.date ev) = Some t ∧
    ¬ (s <= t < s + durationDays one_week * Dayjs.MS_DAY).
Proof.
  eexists _, (CalendarEvent.mk "2024-01-08T00:00:00.000Z" "LinkedIn"
                "Carousel: what we learned" "Founder POV, 5 slides"), _, _.
  split; [vm_compute; reflexivity |].
  split; [vm_compute; reflexivity |].
  split; [apply list_elem_of_In; cbn; tauto |].
  split; [vm_compute; reflexivity |].
  vm_compute. intros [_ H]. discriminate H.
Qed.

(** ** The pipeline: calendars of generated assets *)

(** The social posts of [buildAssets] are for requested channels. *)
Lemma buildAssets_social_requested input strategy p :
  p ∈ social (buildAssets input strategy) →
  Social.channel p ∈ channels input ∧
  Social.channel p ∈ ["LinkedIn"; "X/Twitter"; "Instagram"].
Proof.
  unfold buildAssets, JS.arr_includes. cbn [social].
  destruct (bool_decide ("LinkedIn" ∈ channels input)) eqn:L;
  destruct (bool_decide ("X/Twitter" ∈ channels input)) eqn:X;
  destruct (bool_decide ("Instagram" ∈ channels input)) eqn:I;
  cbn [app]; intros Hin;
  repeat match goal with
  | H : bool_decide _ = true |- _ => apply bool_decide_eq_true in H
  | H : _ ∈ [] |- _ => apply elem_of_nil in H; contradiction
  | H : _ ∈ _ :: _ |- _ => apply elem_of_cons in H as [-> | H]
  end; cbn [Social.channel]; (split; [assumption | set_solver]).
Qed.

Lemma buildAssets_emails input strategy :
  length (emails (buildAssets input strategy)) = 2%nat.
Proof. reflexivity. Qed.

Section PipelineClaims.
Context {U : UrlApi}.
Import Dayjs DayjsFacts.

(** C10. In the calendar of the generated assets every event is for a
    requested channel, for Website or for LinkedIn: Email, Ads,
    X/Twitter and Instagram events appear only when requested. The
    Website event is there whenever the duration is not negative, the
    LinkedIn one whenever it is at least 7 days, requested or not. *)
Theorem C10_calendar_channels input strategy :
  schedulable input (buildAssets input strategy) →
  ∃ kept,
    buildCalendar input strategy (buildAssets input strategy) = Ok kept ∧
    (∀ ev, ev ∈ kept →
       CalendarEvent.channel ev ∈ channels input ∨
       CalendarEvent.channel ev = "Website" ∨
       CalendarEvent.channel ev = "LinkedIn") ∧
    (0 <= durationDays input →
       ∃ ev, ev ∈ kept ∧ CalendarEvent.channel ev = "Website") ∧
    (7 <= durationDays input →
       ∃ ev, ev ∈ kept ∧ CalendarEvent.channel ev = "LinkedIn").
Proof.
  intros (ms & Hstart & Hsch).
  eexists. split; [apply (buildCalendar_ok _ _ _ ms); assumption |].
  set (assets := buildAssets input strategy).
  split; [| split].
  - intros ev. rewrite list_elem_of_In, in_map_iff.
    intros (sl & <- & Hin). apply filter_In in Hin as [Hin _].
    apply list_elem_of_In in Hin. unfold event_of. cbn [CalendarEvent.channel].
    unfold spec_schedule in Hin.
    rewrite !elem_of_app, elem_of_lookup_imap in Hin.
    destruct Hin as [Hin | [(i & p & -> & Hi) | [Hin | [Hin | Hin]]]].
    + apply list_elem_of_singleton in Hin as ->. now right; left.
    + left. cbn [slot_channel].
      apply (buildAssets_social_requested input strategy).
      apply list_elem_of_lookup. now exists i.
    + destruct (bool_decide _) eqn:E; [| now apply elem_of_nil in Hin].
      apply bool_decide_eq_true in E.
      cbn in Hin.
      apply elem_of_cons in Hin as [-> | Hin]; [now left |].
      apply list_elem_of_singleton in Hin as ->. now left.
    + destruct (bool_decide _) eqn:E; [| now apply elem_of_nil in Hin].
      apply bool_decide_eq_true in E.
      apply list_elem_of_singleton in Hin as ->. now left.
    + apply list_elem_of_singleton in Hin as ->. now right; right.
  - intros Hd. eexists. split.
    + apply list_elem_of_In, in_map, filter_In. split.
      * unfold spec_schedule. apply in_app_iff. left. now left.
      * cbn [offset]. now apply Z.leb_le.
    + reflexivity.
  - intros Hd. eexists. split.
    + apply list_elem_of_In, in_map, filter_In. split.
      * unfold spec_schedule. rewrite !in_app_iff. do 4 right. now left.
      * cbn [offset]. now apply Z.leb_le.
    + reflexivity.
Qed.

End PipelineClaims.

(** ** Slugs *)

Lemma toLowerCase_app a b :
  JS.toLowerCase (a +:+ b) = JS.toLowerCase a +:+ JS.toLowerCase b.
Proof.
  induction a as [| c a IH]; [reflexivity |].
  rewrite append_String. cbn [JS.toLowerCase]. now rewrite IH, append_String.
Qed.

Lemma has_slug_char_app a b :
  has_slug_char (a +:+ b) = has_slug_char a || has_slug_char b.
Proof.
  induction a as [| c a IH]; [reflexivity |].
  rewrite append_String. cbn [has_slug_char]. now rewrite IH, orb_assoc.
Qed.

Lemma has_slug_char_replace_runs s : ∀ b,
  has_slug_char (JS.replace_runs (fun c => negb (is_slug_char c)) "-" b s)
  = has_slug_char s.
Proof.
  induction s as [| c s IH]; intros b; [reflexivity |].
  cbn [JS.replace_runs has_slug_char].
  destruct (is_slug_char c) eqn:E; cbn [negb orb].
  - cbn [has_slug_char]. now rewrite E, IH.
  - destruct b; [apply IH |].
    rewrite append_String, append_nil_l. cbn [has_slug_char].
    rewrite IH. reflexivity.
Qed.

Lemma has_slug_char_drop_last s :
  has_slug_char (JS.drop_last_char "-" s) = has_slug_char s.
Proof.
  induction s as [| c s IH]; [reflexivity |].
  destruct s as [| c' s'].
  - cbn [JS.drop_last_char]. destruct (Ascii.eqb_spec c "-") as [-> |]; reflexivity.
  - change (JS.drop_last_char "-" (String c (String c' s')))
      with (String c (JS.drop_last_char "-" (String c' s'))).
    cbn [has_slug_char] in *. now rewrite IH.
Qed.

Lemma has_slug_char_strip s :
  has_slug_char (JS.strip_ends "-" s) = has_slug_char s.
Proof.
  destruct s as [| c s]; [reflexivity |].
  unfold JS.strip_ends.
  destruct (Ascii.eqb_spec c "-") as [-> |]; rewrite has_slug_char_drop_last;
    reflexivity.
Qed.

Example slugify_goal :
  slugify "Increase signups by 30% in 30 days"
  = "increase-signups-by-30-in-30-days".
Proof. reflexivity. Qed.

(** A text with a letter or a digit has a slug that is not empty. *)
Lemma slugify_nonempty s :
  has_slug_char (JS.toLowerCase s) = true → slugify s ≠ EmptyString.
Proof.
  intros Hs. unfold slugify.
  rewrite <- (has_slug_char_replace_runs _ false), <- has_slug_char_strip in Hs.
  destruct (JS.strip_ends _ _) as [| c r]; [discriminate Hs |].
  discriminate.
Qed.

(** The titles of the generated assets all have a slug. *)
Lemma pipeline_titles_have_slug input strategy sl :
  sl ∈ spec_schedule input (buildAssets input strategy) →
  slugify (slot_title sl) ≠ EmptyString.
Proof.
  unfold spec_schedule. rewrite !elem_of_app, elem_of_lookup_imap.
  intros [Hin | [(i & p & -> & Hi) | [Hin | [Hin | Hin]]]].
  - apply list_elem_of_singleton in Hin as ->. discriminate.
  - discriminate.
  - destruct (bool_decide _); [| now apply elem_of_nil in Hin].
    cbn [buildAssets emails] in Hin.
    apply elem_of_cons in Hin as [-> | Hin].
    + cbn [slot_title Email.subject]. apply slugify_nonempty.
      rewrite toLowerCase_app, has_slug_char_app. apply orb_true_r.
    + apply list_elem_of_singleton in Hin as ->.
      cbn [slot_title Email.subject]. apply slugify_nonempty. reflexivity.
  - destruct (bool_decide _); [| now apply elem_of_nil in Hin].
    apply list_elem_of_singleton in Hin as ->. discriminate.
  - apply list_elem_of_singleton in Hin as ->. discriminate.
Qed.

Lemma Forall2_map_diag {A B : Type} (f : A → B) (P : B → A → Prop) l :
  (∀ a, a ∈ l → P (f a) a) → Forall2 P (map f l) l.
Proof.
  induction l as [| a l IH]; intros HP; cbn [map]; constructor.
  - apply HP. now left.
  - apply IH. intros a' Ha'. apply HP. now right.
Qed.

(** ** UTM links *)

Section UtmClaims.
Context {U : UrlApi}.
Import Dayjs DayjsFacts.

(** Failing soft: an invalid base URL comes back unchanged. *)
Lemma buildUtmUrl_invalid baseUrl params :
  URL_new baseUrl = None → buildUtmUrl baseUrl params = baseUrl.
Proof. intros Hnew. unfold buildUtmUrl. now rewrite Hnew. Qed.

(** On a valid base URL the link is the URL with the parameters set:
    the four of them when the title has a slug, the first three when the
    slug is empty, because [buildUtmUrl] sets [utm_content] under the
    guard [if (params.content)]. *)
Lemma buildUtmUrl_link landing u goal_ channel title :
  URL_new landing = Some u →
  ∃ u', buildUtmUrl landing
          {| source := JS.toLowerCase channel; medium := utm_medium channel;
             campaign := slugify goal_; content := Some (slugify title) |}
        = URL_toString u' ∧
    u' = (if decide (slugify title = EmptyString)
          then spec_utm_campaign_url u goal_ channel
          else spec_utm_url u goal_ channel title) ∧
    searchParams_get u' "utm_source" = Some (JS.toLowerCase channel) ∧
    searchParams_get u' "utm_medium" = Some (spec_utm_medium channel) ∧
    searchParams_get u' "utm_campaign" = Some (slugify goal_) ∧
    (slugify title ≠ EmptyString →
     searchParams_get u' "utm_content" = Some (slugify title)) ∧
    (slugify title = EmptyString →
     searchParams_get u' "utm_content" = searchParams_get u "utm_content") ∧
    (∀ k, k ∉ utm_keys → searchParams_get u' k = searchParams_get u k).
Proof.
  intros Hnew. unfold buildUtmUrl. rewrite Hnew.
  cbn [source medium campaign content JS.splice].
  unfold spec_utm_url, spec_utm_campaign_url, utm_keys.
  change (utm_medium channel) with (spec_utm_medium channel).
  destruct (decide (slugify title = EmptyString)) as [He | Hne].
  - rewrite He. cbn [JS.truthy]. eexists. split; [reflexivity |].
    split; [reflexivity |]. repeat split.
    + rewrite !searchParams_get_set_ne by discriminate.
      apply searchParams_get_set_eq.
    + rewrite !searchParams_get_set_ne by discriminate.
      apply searchParams_get_set_eq.
    + apply searchParams_get_set_eq.
    + intros Hne. contradiction.
    + intros _. now rewrite !searchParams_get_set_ne by discriminate.
    + intros k Hk. rewrite !not_elem_of_cons in Hk.
      destruct Hk as (H1 & H2 & H3 & H4 & _).
      now rewrite !searchParams_get_set_ne by congruence.
  - assert (Ht : JS.truthy (Some (slugify title)) = true)
      by (destruct (slugify title); [contradiction | reflexivity]).
    rewrite Ht. eexists. split; [reflexivity |].
    split; [reflexivity |]. repeat split.
    + rewrite !searchParams_get_set_ne by discriminate.
      apply searchParams_get_set_eq.
    + rewrite !searchParams_get_set_ne by discriminate.
      apply searchParams_get_set_eq.
    + rewrite !searchParams_get_set_ne by discriminate.
      apply searchParams_get_set_eq.
    + intros _. apply searchParams_get_set_eq.
    + intros He. contradiction.
    + intros k Hk. rewrite !not_elem_of_cons in Hk.
      destruct Hk as (H1 & H2 & H3 & H4 & _).
      now rewrite !searchParams_get_set_ne by congruence.
Qed.

(** C4, as amended. With a non-empty landing URL, [buildCalendar]
    generates one event per slot of the schedule, whatever the assets
    and whatever the landing URL, and keeps those the duration admits.
    Every generated event whose channel is not Website has its notes
    followed by a line [Link: ...]. When the landing URL is not a valid
    absolute URL the link is the landing URL itself. Otherwise the link
    is the landing URL [u] with [utm_source] the lower-cased channel,
    [utm_medium] [email], [cpc] or [social] according to the channel,
    [utm_campaign] the slug of the goal and, when the slug of the title
    is not empty, [utm_content] that slug; when the slug of the title is
    empty [utm_content] is not set and stays what the landing URL has
    under it. Every other parameter of the landing URL is kept. The
    medium is evaluated on the channels of the vocabulary and on
    channels written in another case. *)
Theorem C4_utm_links input strategy assets landing :
  schedulable input assets →
  landingUrl input = Some landing → landing ≠ EmptyString →
  map utm_medium
    ["Email"; "Ads"; "LinkedIn"; "X/Twitter"; "Instagram";
     "EMAIL digest"; "Google ads"; "Email ads"]
  = ["email"; "cpc"; "social"; "social"; "social"; "email"; "cpc"; "email"] ∧
  ∃ generated,
    generateEvents input strategy assets = Ok generated ∧
    buildCalendar input strategy assets
    = Ok (List.filter
            (within (Dayjs.startOf_day (startDate input)) (durationDays input))
            generated) ∧
    Forall2 (fun ev sl =>
      CalendarEvent.channel ev = slot_channel sl ∧
      CalendarEvent.title ev = slot_title sl ∧
      (slot_channel sl = "Website" → CalendarEvent.notes ev = slot_notes sl) ∧
      (slot_channel sl ≠ "Website" →
       ∃ link,
         CalendarEvent.notes ev
         = slot_notes sl +:+ JS.nl +:+ "Link: " +:+ link ∧
         (URL_new landing = None → link = landing) ∧
         (∀ u, URL_new landing = Some u →
            ∃ u', link = URL_toString u' ∧
              u' = (if decide (slugify (slot_title sl) = EmptyString)
                    then spec_utm_campaign_url u (goal input) (slot_channel sl)
                    else spec_utm_url u (goal input) (slot_channel sl)
                           (slot_title sl)) ∧
              searchParams_get u' "utm_source"
              = Some (JS.toLowerCase (slot_channel sl)) ∧
              searchParams_get u' "utm_medium"
              = Some (if JS.match_ci "email" (slot_channel sl) then "email"
                      else if JS.match_ci "ads" (slot_channel sl) then "cpc"
                      else "social") ∧
              searchParams_get u' "utm_campaign" = Some (slugify (goal input)) ∧
              (slugify (slot_title sl) ≠ EmptyString →
               searchParams_get u' "utm_content"
               = Some (slugify (slot_title sl))) ∧
              (slugify (slot_title sl) = EmptyString →
               searchParams_get u' "utm_content"
               = searchParams_get u "utm_content") ∧
              (∀ k, k ∉ utm_keys →
                    searchParams_get u' k = searchParams_get u k))))
      generated (spec_schedule input assets).
Proof.
  intros (ms & Hstart & Hsch) Hlanding Hne.
  pose proof (generateEvents_ok input strategy assets ms Hstart Hsch) as Hgen.
  split; [reflexivity |].
  eexists. split; [exact Hgen |]. split.
  { unfold buildCalendar. rewrite Hgen. reflexivity. }
  apply Forall2_map_diag. intros sl Hin.
  unfold event_of. cbn [CalendarEvent.channel CalendarEvent.title CalendarEvent.notes].
  split; [reflexivity |]. split; [reflexivity |].
  unfold fullNotes. rewrite Hlanding.
  assert (Htruthy : JS.truthy (Some landing) = true)
    by (destruct landing; [contradiction | reflexivity]).
  rewrite Htruthy. cbn [andb JS.splice].
  destruct (String.eqb_spec (slot_channel sl) "Website") as [Hw | Hw];
    cbn [negb]; (split; [intros Hw'; try contradiction; reflexivity |]);
    intros Hw'; [contradiction |].
  eexists. split; [reflexivity |]. split.
  - apply buildUtmUrl_invalid.
  - intros u Hu. apply (buildUtmUrl_link landing u); exact Hu.
Qed.

End UtmClaims.

(** C4, as stated, fails: [utm_content] is not always the slug of the
    title. In an e-mail campaign whose first subject is [!!!], a title
    with an empty slug, the link of that e-mail has three parameters and
    no [utm_content]; the link the claim describes ends in
    [utm_content=]. *)
Lemma C4_counterexample :
  ∃ generated ev u,
    generateEvents (U := SimpleUrl.api) email_launch
      (buildStrategy email_launch) hand_written = Ok generated ∧
    ev ∈ generated ∧
    CalendarEvent.channel ev = "Email" ∧ CalendarEvent.title ev = "!!!" ∧
    landingUrl email_launch = Some "https://acme.example/start" ∧
    URL_new (UrlApi := SimpleUrl.api) "https://acme.example/start" = Some u ∧
    CalendarEvent.notes ev
    = "Open me" +:+ JS.nl +:+
      "Link: https://acme.example/start?utm_source=email&utm_medium=email&utm_campaign=grow" ∧
    slugify "!!!" = EmptyString ∧
    (∃ u', CalendarEvent.notes ev
           = "Open me" +:+ JS.nl +:+ "Link: " +:+
             URL_toString (UrlApi := SimpleUrl.api) u' ∧
           searchParams_get (UrlApi := SimpleUrl.api) u' "utm_content" = None) ∧
    URL_toString (spec_utm_url (U := SimpleUrl.api) u (goal email_launch)
                    "Email" "!!!")
    = "https://acme.example/start?utm_source=email&utm_medium=email&utm_campaign=grow&utm_content=" ∧
    CalendarEvent.notes ev
    ≠ "Open me" +:+ JS.nl +:+ "Link: " +:+
      URL_toString (spec_utm_url (U := SimpleUrl.api) u (goal email_launch)
                      "Email" "!!!").
Proof.
  eexists _, (CalendarEvent.mk "2024-01-03T00:00:00.000Z" "Email" "!!!" _), _.
  split; [vm_compute; reflexivity |].
  split; [apply list_elem_of_In; cbn; tauto |].
  split; [reflexivity |]. split; [reflexivity |]. split; [reflexivity |].
  split; [reflexivity |].
  split; [vm_compute; reflexivity |].
  split; [reflexivity |].
  split.
  { exists ("https://acme.example/start",
            [("utm_source", "email"); ("utm_medium", "email");
             ("utm_campaign", "grow")]).
    split; vm_compute; reflexivity. }
  split; [vm_compute; reflexivity |].
  vm_compute. discriminate.
Qed.

(** ** The end-to-end scenario *)

Section Scenario.
Context {U : UrlApi}.

(** C2, as the code has it. For the Acme input (goal "Increase signups
    by 30% in 30 days", channels Website and Email, start 2024-01-01,
    14 days, empty landing URL) the channel plan has exactly the keys
    Website and Email; the calendar has the four events of days
    0 (Website), 2 (Email), 9 (Email) and 7 (LinkedIn), none filtered
    out; the CSV text has 5 lines. There is no ICS text: on this
    calendar [buildIcs] raises a [TypeError], and [buildExportBundle]
    with it. *)
Theorem C2_end_to_end description audience_ tone_ budget_ :
  let input := acme description audience_ tone_ budget_ in
  let strategy := buildStrategy input in
  let assets := buildAssets input strategy in
  dom (channelsPlan strategy) = ({[ "Website"; "Email" ]} : gset string) ∧
  ∃ calendar,
    buildCalendar input strategy assets = Ok calendar ∧
    generateEvents input strategy assets = Ok calendar ∧
    map (fun ev =>
           (Dayjs.diff_day (Dayjs.parse (CalendarEvent.date ev))
              (Dayjs.startOf_day (startDate input)),
            CalendarEvent.channel ev)) calendar
    = [(Some 0, "Website"); (Some 2, "Email"); (Some 9, "Email");
       (Some 7, "LinkedIn")] ∧
    length (text_lines EmptyString (toCalendarCsv calendar)) = 5%nat ∧
    buildIcs calendar = Throw TypeError ∧
    buildExportBundle input strategy assets calendar = Throw TypeError.
Proof.
  intros input strategy assets. split.
  - subst strategy input. unfold buildStrategy, acme.
    cbn [channelsPlan channels fold_left].
    rewrite !dom_insert_L, dom_empty_L. set_solver.
  - eexists. split; [vm_compute; reflexivity |].
    split; [vm_compute; reflexivity |].
    split; [vm_compute; reflexivity |].
    split; [vm_compute; reflexivity |].
    split; reflexivity.
Qed.

End Scenario.

(** ** CSV export *)

Lemma fold_left_push {A B : Type} (f : A → list B) (l : list A) : ∀ acc,
  fold_left (fun acc a => acc ++ f a) l acc = acc ++ concat (map f l).
Proof.
  induction l as [| a l IH]; intros acc; cbn [fold_left map concat].
  - now rewrite app_nil_r.
  - now rewrite IH, app_assoc.
Qed.

Lemma concat_map_singleton {A B : Type} (f : A → B) (l : list A) :
  concat (map (fun a => [f a]) l) = map f l.
Proof. induction l as [| a l IH]; cbn; [| rewrite IH]; reflexivity. Qed.

Lemma prefix_nil s : String.prefix EmptyString s = true.
Proof. destruct s; reflexivity. Qed.

(** Searching for a one-character text is searching for the character. *)
Lemma includes_char c s :
  JS.includes (String c EmptyString) s = true ↔ In c (list_ascii_of_string s).
Proof.
  induction s as [| a s IH]; cbn [JS.includes String.prefix list_ascii_of_string In].
  - split; [discriminate | contradiction].
  - destruct (ascii_dec c a) as [-> | Hne].
    + rewrite prefix_nil. cbn [orb]. split; [now left | reflexivity].
    + cbn [orb]. rewrite IH. split; [now right |].
      intros [-> | Hin]; [contradiction | exact Hin].
Qed.

Lemma includes_char_false c s :
  JS.includes (String c EmptyString) s = false ↔ ¬ In c (list_ascii_of_string s).
Proof.
  rewrite <- includes_char. destruct (JS.includes _ s); split; easy.
Qed.

Lemma append_string_of_list s l :
  s +:+ string_of_list_ascii l
  = string_of_list_ascii (list_ascii_of_string s ++ l).
Proof.
  induction s as [| b s IH]; [reflexivity |].
  rewrite append_String. cbn [list_ascii_of_string app string_of_list_ascii].
  now rewrite IH.
Qed.

(** Replacing a character, seen on the list of characters. *)
Lemma replace_char_flat_map c by_ s :
  JS.replace_char c by_ s
  = string_of_list_ascii
      (flat_map (fun a => if Ascii.eqb a c then list_ascii_of_string by_ else [a])
         (list_ascii_of_string s)).
Proof.
  induction s as [| a s IH]; [reflexivity |].
  cbn [JS.replace_char list_ascii_of_string flat_map].
  destruct (Ascii.eqb a c).
  - now rewrite IH, append_string_of_list.
  - cbn [app string_of_list_ascii]. now rewrite IH.
Qed.

Lemma last_char_in s c : last_char s = Some c → In c (list_ascii_of_string s).
Proof.
  induction s as [| a s IH]; [discriminate |].
  destruct s as [| a' s'].
  - cbn. intros [= ->]. now left.
  - intros H. right. apply IH. exact H.
Qed.

Lemma last_char_app a b :
  last_char (a +:+ b)
  = match last_char b with Some c => Some c | None => last_char a end.
Proof.
  induction a as [| x a IH].
  - rewrite append_nil_l. now destruct (last_char b).
  - rewrite append_String. destruct a as [| y a'].
    + rewrite append_nil_l. destruct b as [| z b']; [reflexivity |].
      change (last_char (String x (String z b'))) with (last_char (String z b')).
      destruct (last_char (String z b')) eqn:E; [reflexivity |].
      exfalso. clear -E. revert z E. induction b' as [| w b' IHb]; intros z E.
      * discriminate.
      * apply (IHb w). exact E.
    + change (last_char (String x (String y a' +:+ b)))
        with (last_char (String y a' +:+ b)) in *.
      rewrite append_String in *.
      exact IH.
Qed.

Lemma last_char_None s : last_char s = None → s = EmptyString.
Proof.
  induction s as [| a s IH]; [reflexivity |].
  destruct s as [| a' s']; [discriminate |].
  intros H. specialize (IH H). discriminate.
Qed.

Lemma join_ends_a_text sep l :
  l ≠ [] → Forall ends_a_text l → ends_a_text (JS.join sep l).
Proof.
  induction l as [| x l IH]; [contradiction |].
  intros _ Hall. apply Forall_cons in Hall as [Hx Hl].
  destruct l as [| y l']; [exact Hx |].
  change (JS.join sep (x :: y :: l')) with (x +:+ sep +:+ JS.join sep (y :: l')).
  destruct (IH ltac:(discriminate) Hl) as (c & Hc & Hnl).
  exists c. split; [| exact Hnl].
  rewrite !last_char_app, Hc. reflexivity.
Qed.

Lemma csvEscape_end v :
  csvEscape v = EmptyString ∨ ends_a_text (csvEscape v).
Proof.
  unfold csvEscape.
  destruct (JS.includes JS.dq v || JS.includes "," v) eqn:E1; cbn [orb].
  - right. exists "034"%char. split; [| discriminate].
    rewrite !last_char_app. reflexivity.
  - destruct (JS.includes JS.nl v) eqn:E2.
    + right. exists "034"%char. split; [| discriminate].
      rewrite !last_char_app. reflexivity.
    + destruct (last_char v) as [c |] eqn:E3.
      * right. exists c. split; [exact E3 |].
        intros ->. apply last_char_in in E3.
        apply includes_char_false in E2. contradiction.
      * left. now apply last_char_None.
Qed.

Lemma csv_row_ends_a_text a b c d :
  ends_a_text (a +:+ "," +:+ b +:+ "," +:+ c +:+ "," +:+ csvEscape d).
Proof.
  destruct (csvEscape_end d) as [-> | (x & Hx & Hnl)].
  - exists ","%char. split; [| discriminate].
    rewrite !last_char_app. reflexivity.
  - exists x. split; [| exact Hnl].
    rewrite !last_char_app, Hx. reflexivity.
Qed.

(** C5. [toCalendarCsv] returns the header line
    [date,channel,title,notes] and then one row per event, in the order
    of the list, joined by single line feeds; the text does not end
    with a line feed. A field is put between double quotes, its double
    quotes doubled, exactly when it has a comma, a double quote or a
    line feed, and is written as it is otherwise. *)
Theorem C5_csv_format (events : list CalendarEvent.t) :
  toCalendarCsv events
  = JS.join JS.nl
      ("date,channel,title,notes" ::
       map (fun ev =>
              csvEscape (CalendarEvent.date ev) +:+ "," +:+
              csvEscape (CalendarEvent.channel ev) +:+ "," +:+
              csvEscape (CalendarEvent.title ev) +:+ "," +:+
              csvEscape (CalendarEvent.notes ev)) events) ∧
  last_char (toCalendarCsv events) ≠ Some "010"%char ∧
  (∀ v : string,
     let special := fun c : ascii =>
       c = "034"%char ∨ c = ","%char ∨ c = "010"%char in
     ((∃ c, In c (list_ascii_of_string v) ∧ special c) →
      csvEscape v
      = JS.dq +:+
        string_of_list_ascii
          (flat_map (fun c => if Ascii.eqb c "034" then ["034"; "034"]%char
                              else [c])
             (list_ascii_of_string v)) +:+ JS.dq) ∧
     (¬ (∃ c, In c (list_ascii_of_string v) ∧ special c) → csvEscape v = v)) ∧
  csvEscape "a, b" = JS.dq +:+ "a, b" +:+ JS.dq ∧
  csvEscape ("He said " +:+ JS.dq +:+ "hi" +:+ JS.dq)
  = JS.dq +:+ "He said " +:+ JS.dq +:+ JS.dq +:+ "hi" +:+ JS.dq +:+ JS.dq +:+
    JS.dq.
Proof.
  assert (Hshape : toCalendarCsv events
    = JS.join JS.nl
        ("date,channel,title,notes" ::
         map (fun ev =>
                csvEscape (CalendarEvent.date ev) +:+ "," +:+
                csvEscape (CalendarEvent.channel ev) +:+ "," +:+
                csvEscape (CalendarEvent.title ev) +:+ "," +:+
                csvEscape (CalendarEvent.notes ev)) events)).
  { unfold toCalendarCsv.
    rewrite (fold_left_push (fun ev => [JS.join "," _])).
    rewrite concat_map_singleton. reflexivity. }
  split; [exact Hshape |]. split; [| split; [| split; reflexivity]].
  - rewrite Hshape.
    destruct (join_ends_a_text JS.nl
      ("date,channel,title,notes" ::
       map (fun ev =>
              csvEscape (CalendarEvent.date ev) +:+ "," +:+
              csvEscape (CalendarEvent.channel ev) +:+ "," +:+
              csvEscape (CalendarEvent.title ev) +:+ "," +:+
              csvEscape (CalendarEvent.notes ev)) events))
      as (c & Hc & Hnl); [discriminate | | ].
    + constructor.
      * exists "s"%char. split; [reflexivity | discriminate].
      * apply Forall_forall. intros row Hrow.
        apply list_elem_of_In, in_map_iff in Hrow as (ev & <- & _).
        apply csv_row_ends_a_text.
    + rewrite Hc. intros [= ->]. now apply Hnl.
  - intros v special. unfold csvEscape. split.
    + intros (c & Hin & Hc).
      assert (Hq : JS.includes JS.dq v || JS.includes "," v
                   || JS.includes JS.nl v = true).
      { destruct Hc as [-> | [-> | ->]].
        - apply (includes_char "034") in Hin. unfold JS.dq. now rewrite Hin.
        - apply (includes_char ",") in Hin. rewrite Hin. apply orb_true_iff.
          left. apply orb_true_r.
        - apply (includes_char "010") in Hin. unfold JS.nl. rewrite Hin.
          apply orb_true_r. }
      rewrite Hq. now rewrite replace_char_flat_map.
    + intros Hnone.
      destruct (JS.includes JS.dq v) eqn:E1.
      { exfalso. apply Hnone. exists "034"%char.
        split; [now apply includes_char | now left]. }
      destruct (JS.includes "," v) eqn:E2.
      { exfalso. apply Hnone. exists ","%char.
        split; [now apply includes_char | right; now left]. }
      destruct (JS.includes JS.nl v) eqn:E3.
      { exfalso. apply Hnone. exists "010"%char.
        split; [now apply includes_char | right; now right]. }
      reflexivity.
Qed.

(** ** iCalendar export *)

(** The callback of [buildIcs] raises on every event: its first
    statement calls [utc], which the program never registered. *)
Lemma vevent_throws idx ev : vevent idx ev = Throw TypeError.
Proof. reflexivity. Qed.

Lemma buildIcs_nil :
  buildIcs []
  = Ok (JS.join JS.nl
          [ "BEGIN:VCALENDAR"; "VERSION:2.0"; "PRODID:-//Campaign Agent//EN";
            "END:VCALENDAR" ]).
Proof. reflexivity. Qed.

Lemma buildIcs_cons ev events : buildIcs (ev :: events) = Throw TypeError.
Proof. reflexivity. Qed.

Lemma buildIcs_cases events :
  buildIcs events
  = match events with
    | [] => Ok (JS.join JS.nl
                  [ "BEGIN:VCALENDAR"; "VERSION:2.0";
                    "PRODID:-//Campaign Agent//EN"; "END:VCALENDAR" ])
    | _ :: _ => Throw TypeError
    end.
Proof. destruct events; reflexivity. Qed.

(** C6, as the code has it. [buildIcs] returns a text for the empty
    list only: the three opening lines and [END:VCALENDAR], joined by
    line feeds. On a list with at least one event it raises a
    [TypeError] at the first event, before any line of a block is
    pushed, whatever the events hold: no VEVENT block is ever written.
    So it is for a single event with a valid date. *)
Theorem C6_ics_format :
  buildIcs []
  = Ok ("BEGIN:VCALENDAR" +:+ JS.nl +:+ "VERSION:2.0" +:+ JS.nl +:+
        "PRODID:-//Campaign Agent//EN" +:+ JS.nl +:+ "END:VCALENDAR") ∧
  (∀ ev events, buildIcs (ev :: events) = Throw TypeError) ∧
  (∀ events text, buildIcs events = Ok text → events = []) ∧
  buildIcs [CalendarEvent.mk "2024-12-31T23:30:15.123Z" "Email" "Hello"
              ("line one" +:+ JS.nl +:+ "line two")]
  = Throw TypeError.
Proof.
  split; [reflexivity |]. split; [intros ev events; apply buildIcs_cons |].
  split; [| reflexivity].
  intros [| ev events] text H; [reflexivity |].
  rewrite buildIcs_cons in H. discriminate H.
Qed.

(** ** Strategy *)

(** What [forEach] leaves under a key of the plan. *)
Lemma channelsPlan_lookup (l : list string) : ∀ (m : gmap string (option Plan.t)) k,
  fold_left (fun plan ch => <[ch := base !! ch]> plan) l m !! k
  = if decide (k ∈ l) then Some (base !! k) else m !! k.
Proof.
  induction l as [| a l IH]; intros m k; cbn [fold_left].
  - destruct (decide (k ∈ [])) as [Hin | _]; [| reflexivity].
    now apply elem_of_nil in Hin.
  - rewrite IH. destruct (decide (k ∈ l)) as [Hin | Hnin].
    + rewrite decide_True by now right. reflexivity.
    + destruct (decide (k = a)) as [-> | Hne].
      * rewrite decide_True by now left. apply lookup_insert_eq.
      * rewrite decide_False by (intros [-> | H]%elem_of_cons; contradiction).
        now apply lookup_insert_ne.
Qed.

(** The table has a complete entry for each channel of the vocabulary. *)
Lemma base_vocabulary k :
  k ∈ vocabulary →
  ∃ e, base !! k = Some e ∧ Plan.objective e ≠ EmptyString ∧
       Plan.strategy e ≠ EmptyString ∧ Plan.kpis e ≠ [].
Proof.
  unfold vocabulary. intros Hk.
  repeat (apply elem_of_cons in Hk as [-> | Hk];
          [eexists; split; [vm_compute; reflexivity | repeat split; discriminate] |]).
  now apply elem_of_nil in Hk.
Qed.

(** C7. When the requested channels all belong to the six-channel
    vocabulary, the keys of [channelsPlan] are exactly the requested
    channels, and each key holds one entry, whose objective, strategy
    and list of KPIs are not empty. No key lies outside
    [input.channels]. *)
Theorem C7_channelsPlan_keys input :
  Forall (fun ch => ch ∈ vocabulary) (channels input) →
  dom (channelsPlan (buildStrategy input))
  = (list_to_set (channels input) : gset string) ∧
  (∀ k, k ∉ channels input → channelsPlan (buildStrategy input) !! k = None) ∧
  (∀ k, k ∈ channels input →
     ∃ e, channelsPlan (buildStrategy input) !! k = Some (Some e) ∧
          Plan.objective e ≠ EmptyString ∧ Plan.strategy e ≠ EmptyString ∧
          Plan.kpis e ≠ []).
Proof.
  intros Hvoc. cbn [buildStrategy channelsPlan]. split; [| split].
  - apply set_eq. intros k.
    rewrite elem_of_dom, elem_of_list_to_set, channelsPlan_lookup.
    destruct (decide (k ∈ channels input)) as [Hin | Hnin].
    + split; [intros _; exact Hin | intros _; eexists; reflexivity].
    + rewrite lookup_empty. split; [intros [x Hx]; discriminate | contradiction].
  - intros k Hnin. rewrite channelsPlan_lookup, decide_False by exact Hnin.
    apply lookup_empty.
  - intros k Hin. rewrite channelsPlan_lookup, decide_True by exact Hin.
    rewrite Forall_forall in Hvoc.
    destruct (base_vocabulary k (Hvoc k Hin)) as (e & -> & He).
    exists e. split; [reflexivity | exact He].
Qed.

(** ** Assets *)

(** C8. [buildAssets] depends only on [productName], [audience], [goal]
    and [channels] of the input and on [valueProps] and [primaryMessage]
    of the strategy: two calls that agree on these give the same
    assets. *)
Theorem C8_buildAssets_depends_on i1 s1 i2 s2 :
  productName i1 = productName i2 → audience i1 = audience i2 →
  goal i1 = goal i2 → channels i1 = channels i2 →
  valueProps s1 = valueProps s2 → primaryMessage s1 = primaryMessage s2 →
  buildAssets i1 s1 = buildAssets i2 s2.
Proof.
  intros Hname Haud Hgoal Hch Hvp Hmsg. unfold buildAssets.
  rewrite Hname, Haud, Hgoal, Hch, Hvp, Hmsg. reflexivity.
Qed.

(** C9, as the code has it. The two ad copies splice the value
    propositions of index 2 and 3; the body of the second e-mail is a
    fixed text; the body of the first e-mail lists every value
    proposition on a line of its own, and the prefix of each line is a
    question mark and a space. On the launch with all six channels the
    four lines start with [? ]. *)
Theorem C9_asset_templates input strategy :
  let brand := productName input in
  adCopy (buildAssets input strategy)
  = [ brand +:+ " helps " +:+ JS.toLowerCase (audience input) +:+ " " +:+
        JS.toLowerCase (goal input) +:+ ". " +:+
        JS.splice (valueProps strategy !! 2%nat) +:+ ". Start in minutes.";
      "Stop drowning in dashboards. " +:+ brand +:+
        " surfaces what moves the needle. " +:+
        JS.splice (valueProps strategy !! 3%nat) +:+ "." ] ∧
  Email.body <$> emails (buildAssets input strategy)
  = [ "Hi there," +:+ JS.nl +:+ JS.nl +:+
      "If analytics feels noisy, you're not alone. " +:+ brand +:+
      " focuses on outcomes." +:+ JS.nl +:+ JS.nl +:+
      "Why teams switch:" +:+ JS.nl +:+
      JS.join JS.nl (map (fun s => "? " +:+ s) (valueProps strategy)) +:+
      JS.nl +:+ JS.nl +:+
      "Want a 3-minute walkthrough? Reply with " +:+ JS.dq +:+ "demo" +:+
      JS.dq +:+ " and I?ll share a short video." +:+ JS.nl +:+ JS.nl +:+
      "Best," +:+ JS.nl +:+ brand +:+ " Team";
      "Quick story: a SaaS team found a 24% activation lift after seeing a drop-off cohort at Day 2. They added an in-app nudge based on our insight." +:+
      JS.nl +:+ JS.nl +:+ "It took an afternoon. Results stuck." +:+
      JS.nl +:+ JS.nl +:+
      "Curious what your data says? Happy to take a look and share a 1-pager." ] ∧
  bullets (valueProps (buildStrategy full_launch))
  = "? Set up in minutes, not weeks" +:+ JS.nl +:+
    "? Privacy-first by design" +:+ JS.nl +:+
    "? Crystal-clear funnels and cohort analysis" +:+ JS.nl +:+
    "? Actionable AI insights, not vanity metrics".
Proof.
  intros brand. split; [reflexivity |]. split; [reflexivity |].
  vm_compute. reflexivity.
Qed.

(** ** The theorems at concrete inputs *)

Lemma full_launch_start : startDate full_launch = Some 1704067200000.
Proof. vm_compute. reflexivity. Qed.

Lemma full_launch_schedulable_at :
  schedulable_at 1704067200000 full_launch
    (buildAssets full_launch (buildStrategy full_launch)) = true.
Proof. vm_compute. reflexivity. Qed.

Lemma full_launch_schedulable :
  schedulable full_launch (buildAssets full_launch (buildStrategy full_launch)).
Proof.
  exists 1704067200000.
  split; [exact full_launch_start | exact full_launch_schedulable_at].
Qed.

Lemma one_week_schedulable :
  schedulable one_week (buildAssets one_week (buildStrategy one_week)).
Proof. exists 1704067200000. split; vm_compute; reflexivity. Qed.


(** The calendar keeps the order of generation: on the launch with all
    six channels the offsets are not sorted. *)
Example full_launch_offsets :
  (fun events =>
     map (fun ev =>
            Dayjs.diff_day (Dayjs.parse (CalendarEvent.date ev))
              (Dayjs.startOf_day (startDate full_launch))) events)
  <$> buildCalendar (U := SimpleUrl.api) full_launch (buildStrategy full_launch)
        (buildAssets full_launch (buildStrategy full_launch))
  = Ok [Some 0; Some 1; Some 3; Some 5; Some 2; Some 9; Some 1; Some 7].
Proof. vm_compute. reflexivity. Qed.

(** C3, as amended, on the launch with all six channels. *)
Lemma C3_witness :
  ∃ generated kept,
    generateEvents (U := SimpleUrl.api) full_launch (buildStrategy full_launch)
      (buildAssets full_launch (buildStrategy full_launch)) = Ok generated ∧
    buildCalendar (U := SimpleUrl.api) full_launch (buildStrategy full_launch)
      (buildAssets full_launch (buildStrategy full_launch)) = Ok kept ∧
    ∀ ev, ev ∈ kept ↔
      ev ∈ generated ∧
      ∃ t, Dayjs.parse (CalendarEvent.date ev) = Some t ∧
           start_of 1704067200000 <= t
           <= start_of 1704067200000
              + durationDays full_launch * Dayjs.MS_DAY.
Proof.
  apply (C3_dates_in_closed_window (U := SimpleUrl.api) full_launch
           (buildStrategy full_launch)
           (buildAssets full_launch (buildStrategy full_launch))
           1704067200000).
  - exact full_launch_start.
  - exact full_launch_schedulable_at.
Defined.

(** C10 on the one-week campaign that requests no channel. *)
Lemma C10_witness :
  ∃ kept,
    buildCalendar (U := SimpleUrl.api) one_week (buildStrategy one_week)
      (buildAssets one_week (buildStrategy one_week)) = Ok kept ∧
    (∀ ev, ev ∈ kept →
       CalendarEvent.channel ev ∈ channels one_week ∨
       CalendarEvent.channel ev = "Website" ∨
       CalendarEvent.channel ev = "LinkedIn") ∧
    (0 <= durationDays one_week →
       ∃ ev, ev ∈ kept ∧ CalendarEvent.channel ev = "Website") ∧
    (7 <= durationDays one_week →
       ∃ ev, ev ∈ kept ∧ CalendarEvent.channel ev = "LinkedIn").
Proof.
  apply (C10_calendar_channels (U := SimpleUrl.api) one_week
           (buildStrategy one_week)).
  apply one_week_schedulable.
Defined.

(** C4, as amended, on the launch with all six channels and a landing
    page. *)
Lemma C4_witness :
  map utm_medium
    ["Email"; "Ads"; "LinkedIn"; "X/Twitter"; "Instagram";
     "EMAIL digest"; "Google ads"; "Email ads"]
  = ["email"; "cpc"; "social"; "social"; "social"; "email"; "cpc"; "email"] ∧
  ∃ generated,
    generateEvents (U := SimpleUrl.api) full_launch (buildStrategy full_launch)
      (buildAssets full_launch (buildStrategy full_launch)) = Ok generated ∧
    buildCalendar (U := SimpleUrl.api) full_launch (buildStrategy full_launch)
      (buildAssets full_launch (buildStrategy full_launch))
    = Ok (List.filter
            (within (Dayjs.startOf_day (startDate full_launch))
               (durationDays full_launch))
            generated) ∧
    Forall2 (fun ev sl =>
      CalendarEvent.channel ev = slot_channel sl ∧
      CalendarEvent.title ev = slot_title sl ∧
      (slot_channel sl = "Website" → CalendarEvent.notes ev = slot_notes sl) ∧
      (slot_channel sl ≠ "Website" →
       ∃ link,
         CalendarEvent.notes ev
         = slot_notes sl +:+ JS.nl +:+ "Link: " +:+ link ∧
         (SimpleUrl.new "https://acme.example/start" = None →
          link = "https://acme.example/start") ∧
         (∀ u, SimpleUrl.new "https://acme.example/start" = Some u →
            ∃ u', link = SimpleUrl.toString u' ∧
              u' = (if decide (slugify (slot_title sl) = EmptyString)
                    then spec_utm_campaign_url (U := SimpleUrl.api) u
                           (goal full_launch) (slot_channel sl)
                    else spec_utm_url (U := SimpleUrl.api) u
                           (goal full_launch) (slot_channel sl)
                           (slot_title sl)) ∧
              SimpleUrl.get u' "utm_source"
              = Some (JS.toLowerCase (slot_channel sl)) ∧
              SimpleUrl.get u' "utm_medium"
              = Some (if JS.match_ci "email" (slot_channel sl) then "email"
                      else if JS.match_ci "ads" (slot_channel sl) then "cpc"
                      else "social") ∧
              SimpleUrl.get u' "utm_campaign"
              = Some (slugify (goal full_launch)) ∧
              (slugify (slot_title sl) ≠ EmptyString →
               SimpleUrl.get u' "utm_content"
               = Some (slugify (slot_title sl))) ∧
              (slugify (slot_title sl) = EmptyString →
               SimpleUrl.get u' "utm_content" = SimpleUrl.get u "utm_content") ∧
              (∀ k, k ∉ utm_keys → SimpleUrl.get u' k = SimpleUrl.get u k))))
      generated
      (spec_schedule full_launch
         (buildAssets full_launch (buildStrategy full_launch))).
Proof.
  apply (C4_utm_links (U := SimpleUrl.api) full_launch
           (buildStrategy full_launch)
           (buildAssets full_launch (buildStrategy full_launch))
           "https://acme.example/start").
  - apply full_launch_schedulable.
  - reflexivity.
  - discriminate.
Defined.

(** C7 on the launch with all six channels. *)
Lemma C7_witness :
  dom (channelsPlan (buildStrategy full_launch))
  = (list_to_set vocabulary : gset string) ∧
  (∀ k, k ∉ vocabulary → channelsPlan (buildStrategy full_launch) !! k = None) ∧
  (∀ k, k ∈ vocabulary →
     ∃ e, channelsPlan (buildStrategy full_launch) !! k = Some (Some e) ∧
          Plan.objective e ≠ EmptyString ∧ Plan.strategy e ≠ EmptyString ∧
          Plan.kpis e ≠ []).
Proof.
  apply (C7_channelsPlan_keys full_launch).
  apply Forall_forall. intros ch Hch. exact Hch.
Defined.

(** C8: the tone, the budget, the dates, the landing page and the rest
    of the strategy do not reach the assets. *)
Lemma C8_witness :
  buildAssets full_launch (buildStrategy full_launch)
  = buildAssets
      {| goal := goal full_launch; productName := productName full_launch;
         productDescription := "Another description";
         audience := audience full_launch; tone := "playful";
         channels := channels full_launch; budget := 1;
         startDate := None; durationDays := 3; landingUrl := None |}
      {| primaryMessage := primaryMessage (buildStrategy full_launch);
         valueProps := valueProps (buildStrategy full_launch);
         personaSummary := "Another persona";
         channelsPlan := ∅ |}.
Proof.
  apply (C8_buildAssets_depends_on full_launch (buildStrategy full_launch));
    reflexivity.
Defined.

(** * Further properties *)

(** ** The shape of a slug *)

Lemma hyphen_not_slug_char : is_slug_char "-" = false.
Proof. reflexivity. Qed.

Lemma slug_char_not_hyphen c : is_slug_char c = true → Ascii.eqb c "-" = false.
Proof.
  intros Hc. destruct (Ascii.eqb_spec c "-") as [-> |]; [discriminate | reflexivity].
Qed.

Lemma substring0_length n : ∀ s, (String.length (substring 0 n s) ≤ n)%nat.
Proof.
  induction n as [| n IH]; intros [| c s]; cbn; try lia.
  specialize (IH s). lia.
Qed.

Lemma substring0_all n : ∀ s, (String.length s ≤ n)%nat → substring 0 n s = s.
Proof.
  induction n as [| n IH]; intros [| c s]; cbn; try reflexivity; try lia.
  intros Hlen. f_equal. apply IH. lia.
Qed.

Lemma substring0_chars (P : ascii → Prop) n : ∀ s,
  Forall P (list_ascii_of_string s) →
  Forall P (list_ascii_of_string (substring 0 n s)).
Proof.
  induction n as [| n IH]; intros [| c s]; cbn; intros Hall;
    try (constructor; fail).
  apply Forall_cons in Hall as [Hc Hs]. constructor; [exact Hc | now apply IH].
Qed.

Lemma substring0_first n s :
  first_char (substring 0 n s) = None ∨
  first_char (substring 0 n s) = first_char s.
Proof. destruct n, s; cbn; auto. Qed.

Lemma no_double_hyphen_tail c s :
  no_double_hyphen (String c s) = true → no_double_hyphen s = true.
Proof.
  destruct s as [| b r]; [reflexivity |].
  cbn [no_double_hyphen]. intros [_ H]%andb_true_iff. exact H.
Qed.

Lemma no_double_hyphen_cons c s :
  no_double_hyphen (String c s)
  = negb (Ascii.eqb c "-" && match first_char s with
                              | Some b => Ascii.eqb b "-"
                              | None => false
                              end) && no_double_hyphen s.
Proof.
  destruct s as [| b r]; cbn [no_double_hyphen first_char].
  - now rewrite andb_false_r.
  - reflexivity.
Qed.

Lemma substring0_no_double n : ∀ s,
  no_double_hyphen s = true → no_double_hyphen (substring 0 n s) = true.
Proof.
  induction n as [| n IH]; intros [| c s] Hs;
    try reflexivity.
  change (substring 0 (S n) (String c s)) with (String c (substring 0 n s)).
  rewrite no_double_hyphen_cons in *.
  apply andb_true_iff in Hs as [Hc Hs]. rewrite (IH s Hs), andb_true_r.
  destruct (substring0_first n s) as [-> | ->]; [now rewrite andb_false_r | exact Hc].
Qed.

(** After the runs are replaced: slug characters and single hyphens. *)
Lemma replace_runs_shape s : ∀ b,
  let t := JS.replace_runs (fun c => negb (is_slug_char c)) "-" b s in
  Forall (fun c => is_slug_or_hyphen c = true) (list_ascii_of_string t) ∧
  no_double_hyphen t = true ∧
  (b = true → first_char t ≠ Some "-"%char).
Proof.
  induction s as [| a s IH]; intros b; cbn zeta.
  - repeat split; [constructor | discriminate].
  - cbn [JS.replace_runs]. destruct (is_slug_char a) eqn:Ea; cbn [negb].
    + destruct (IH false) as (Hall & Hnd & _). cbn zeta in *.
      pose proof (slug_char_not_hyphen a Ea) as Hne.
      repeat split.
      * cbn [list_ascii_of_string]. constructor; [| exact Hall].
        unfold is_slug_or_hyphen. now rewrite Ea.
      * rewrite no_double_hyphen_cons, Hne, Hnd. reflexivity.
      * intros _. cbn [first_char]. intros [= ->]. discriminate.
    + destruct (IH true) as (Hall & Hnd & Hfirst). cbn zeta in *.
      specialize (Hfirst eq_refl).
      destruct b; [repeat split; auto |].
      rewrite append_String, append_nil_l. repeat split.
      * cbn [list_ascii_of_string]. constructor; [reflexivity | exact Hall].
      * rewrite no_double_hyphen_cons, Hnd, andb_true_r.
        destruct (first_char _) as [c |]; [| reflexivity].
        destruct (Ascii.eqb_spec c "-") as [-> |]; [contradiction | reflexivity].
      * discriminate.
Qed.

Lemma drop_last_char_cons c a b r :
  JS.drop_last_char c (String a (String b r))
  = String a (JS.drop_last_char c (String b r)).
Proof. reflexivity. Qed.

Lemma drop_last_char_shape (P : ascii → Prop) s :
  Forall P (list_ascii_of_string s) → no_double_hyphen s = true →
  Forall P (list_ascii_of_string (JS.drop_last_char "-" s)) ∧
  no_double_hyphen (JS.drop_last_char "-" s) = true ∧
  (first_char (JS.drop_last_char "-" s) = None ∨
   first_char (JS.drop_last_char "-" s) = first_char s).
Proof.
  induction s as [| a s IH]; intros Hall Hnd.
  - repeat split; [constructor | now left].
  - destruct s as [| b r].
    + cbn [JS.drop_last_char]. destruct (Ascii.eqb a "-").
      * repeat split; [constructor | now left].
      * repeat split; [exact Hall | now right].
    + rewrite drop_last_char_cons.
      cbn [list_ascii_of_string] in Hall.
      apply Forall_cons in Hall as [Ha Hall].
      rewrite no_double_hyphen_cons in Hnd.
      apply andb_true_iff in Hnd as [Hab Hnd].
      destruct (IH Hall Hnd) as (Hall' & Hnd' & Hfirst).
      repeat split.
      * cbn [list_ascii_of_string]. now constructor.
      * rewrite no_double_hyphen_cons, Hnd', andb_true_r.
        destruct Hfirst as [-> | ->]; [now rewrite andb_false_r | exact Hab].
      * now right.
Qed.

(** The slug before it is cut to 60 characters. *)
Lemma stripped_shape s :
  let t := JS.strip_ends "-"
             (JS.replace_runs (fun c => negb (is_slug_char c)) "-" false
                (JS.toLowerCase s)) in
  Forall (fun c => is_slug_or_hyphen c = true) (list_ascii_of_string t) ∧
  no_double_hyphen t = true ∧
  first_char t ≠ Some "-"%char.
Proof.
  cbn zeta.
  destruct (replace_runs_shape (JS.toLowerCase s) false) as (Hall & Hnd & _).
  cbn zeta in *.
  destruct (JS.replace_runs _ _ _ _) as [| a r]; [repeat split; [constructor | discriminate] |].
  unfold JS.strip_ends.
  destruct (Ascii.eqb_spec a "-") as [-> | Hne].
  - cbn [list_ascii_of_string] in Hall. apply Forall_cons in Hall as [_ Hall].
    pose proof Hnd as Hnd0. rewrite no_double_hyphen_cons in Hnd0.
    apply andb_true_iff in Hnd0 as [Hfirst Hnd'].
    destruct (drop_last_char_shape _ r Hall Hnd') as (H1 & H2 & H3).
    repeat split; [exact H1 | exact H2 |].
    destruct H3 as [-> | ->]; [discriminate |].
    destruct (first_char r) as [c |]; [| discriminate].
    cbn in Hfirst. intros [= ->]. discriminate.
  - destruct (drop_last_char_shape _ (String a r) Hall Hnd) as (H1 & H2 & H3).
    repeat split; [exact H1 | exact H2 |].
    destruct H3 as [-> | ->]; [discriminate |].
    cbn [first_char]. intros [= ->]. contradiction.
Qed.

(** The shape of a slug. *)
Lemma slugify_shape s :
  (String.length (slugify s) ≤ 60)%nat ∧
  Forall (fun c => is_slug_or_hyphen c = true)
    (list_ascii_of_string (slugify s)) ∧
  first_char (slugify s) ≠ Some "-"%char ∧
  no_double_hyphen (slugify s) = true.
Proof.
  destruct (stripped_shape s) as (Hall & Hnd & Hfirst). cbn zeta in *.
  unfold slugify, JS.slice0. repeat split.
  - apply substring0_length.
  - now apply substring0_chars.
  - destruct (substring0_first 60 (JS.strip_ends "-"
        (JS.replace_runs (fun c => negb (is_slug_char c)) "-" false
           (JS.toLowerCase s)))) as [-> | ->]; [discriminate | exact Hfirst].
  - now apply substring0_no_double.
Qed.

(** X1. A slug has at most 60 characters, all of them lower-case
    letters, digits or hyphens; it does not start with a hyphen and has
    no two hyphens in a row. *)
Theorem X1_slugify_shape s :
  (String.length (slugify s) ≤ 60)%nat ∧
  Forall (fun c => is_slug_or_hyphen c = true)
    (list_ascii_of_string (slugify s)) ∧
  first_char (slugify s) ≠ Some "-"%char ∧
  no_double_hyphen (slugify s) = true.
Proof. apply slugify_shape. Qed.

Lemma is_slug_char_lower c :
  is_slug_char (JS.lower_char c) = JS.is_alnum c.
Proof.
  destruct c as [[] [] [] [] [] [] [] []]; reflexivity.
Qed.

Lemma has_slug_char_lower s :
  has_slug_char (JS.toLowerCase s) = false
  ↔ Forall (fun c => JS.is_alnum c = false) (list_ascii_of_string s).
Proof.
  induction s as [| c s IH]; cbn [JS.toLowerCase has_slug_char list_ascii_of_string].
  - split; [constructor | reflexivity].
  - rewrite orb_false_iff, Forall_cons, is_slug_char_lower, IH. reflexivity.
Qed.

Lemma slugify_empty s :
  slugify s = EmptyString ↔ has_slug_char (JS.toLowerCase s) = false.
Proof.
  split.
  - intros Hempty. destruct (has_slug_char (JS.toLowerCase s)) eqn:E; [| reflexivity].
    now apply slugify_nonempty in E.
  - intros Hnone. destruct (stripped_shape s) as (Hall & _ & Hfirst).
    cbn zeta in *. unfold slugify.
    rewrite <- (has_slug_char_replace_runs _ false), <- has_slug_char_strip in Hnone.
    destruct (JS.strip_ends _ _) as [| c r]; [reflexivity |].
    exfalso. cbn [list_ascii_of_string] in Hall.
    apply Forall_cons in Hall as [Hc _]. cbn [has_slug_char] in Hnone.
    apply orb_false_iff in Hnone as [Hc' _].
    unfold is_slug_or_hyphen in Hc. rewrite Hc' in Hc. cbn [orb] in Hc.
    apply Ascii.eqb_eq in Hc as ->. now apply Hfirst.
Qed.

(** X2. The slug of an ASCII text is empty exactly when the text has
    no letter and no digit. *)
Theorem X2_slugify_empty_iff s :
  JS.is_ascii s = true →
  (slugify s = EmptyString
   ↔ Forall (fun c => JS.is_alnum c = false) (list_ascii_of_string s)).
Proof.
  intros _. rewrite slugify_empty. apply has_slug_char_lower.
Qed.

Lemma slug_or_hyphen_lower c : is_slug_or_hyphen c = true → JS.lower_char c = c.
Proof.
  unfold is_slug_or_hyphen, is_slug_char, JS.lower_char, JS.is_upper, JS.is_lower,
    JS.is_digit.
  intros H.
  destruct (Ascii.eqb c "-") eqn:Eh.
  { apply Ascii.eqb_eq in Eh. subst c. reflexivity. }
  rewrite orb_false_r in H.
  destruct ((65 <=? nat_of_ascii c)%nat && (nat_of_ascii c <=? 90)%nat) eqn:E;
    [| reflexivity].
  exfalso. apply andb_true_iff in E as [E1 E2].
  apply Nat.leb_le in E1, E2.
  apply orb_true_iff in H as [H | H]; apply andb_true_iff in H as [H1 H2];
    apply Nat.leb_le in H1, H2; lia.
Qed.

Lemma toLowerCase_slug t :
  Forall (fun c => is_slug_or_hyphen c = true) (list_ascii_of_string t) →
  JS.toLowerCase t = t.
Proof.
  induction t as [| c t IH]; [reflexivity |].
  cbn [list_ascii_of_string JS.toLowerCase]. intros [Hc Ht]%Forall_cons.
  now rewrite slug_or_hyphen_lower, IH.
Qed.

Lemma replace_runs_slug t : ∀ b,
  Forall (fun c => is_slug_or_hyphen c = true) (list_ascii_of_string t) →
  no_double_hyphen t = true →
  (b = true → first_char t ≠ Some "-"%char) →
  JS.replace_runs (fun c => negb (is_slug_char c)) "-" b t = t.
Proof.
  induction t as [| a t IH]; intros b Hall Hnd Hb; [reflexivity |].
  cbn [list_ascii_of_string] in Hall. apply Forall_cons in Hall as [Ha Hall].
  rewrite no_double_hyphen_cons in Hnd. apply andb_true_iff in Hnd as [Hat Hnd].
  cbn [JS.replace_runs]. destruct (is_slug_char a) eqn:Ea; cbn [negb].
  - f_equal. apply IH; [exact Hall | exact Hnd | discriminate].
  - unfold is_slug_or_hyphen in Ha. rewrite Ea in Ha. cbn [orb] in Ha.
    apply Ascii.eqb_eq in Ha as ->.
    destruct b; [exfalso; now apply Hb |].
    rewrite append_String, append_nil_l. f_equal.
    apply IH; [exact Hall | exact Hnd |].
    intros _ Hfirst. rewrite Hfirst in Hat. discriminate.
Qed.

Lemma drop_last_char_keep c s :
  last_char s ≠ Some c → JS.drop_last_char c s = s.
Proof.
  induction s as [| a s IH]; [reflexivity |].
  destruct s as [| b r].
  - cbn. intros Hne. destruct (Ascii.eqb_spec a c) as [-> |]; [| reflexivity].
    now contradiction Hne.
  - intros Hne. rewrite drop_last_char_cons. f_equal. apply IH. exact Hne.
Qed.

(** X3. The slug of a slug is the slug itself, unless the cut to 60
    characters left a hyphen at its end. *)
Theorem X3_slugify_idempotent s :
  last_char (slugify s) ≠ Some "-"%char →
  slugify (slugify s) = slugify s.
Proof.
  intros Hlast.
  destruct (slugify_shape s) as (Hlen & Hall & Hfirst & Hnd).
  set (t := slugify s) in *. unfold slugify at 1.
  rewrite (toLowerCase_slug t Hall).
  rewrite (replace_runs_slug t false Hall Hnd) by discriminate.
  assert (Hstrip : JS.strip_ends "-" t = t).
  { unfold JS.strip_ends. destruct t as [| a r] eqn:Et; [reflexivity |].
    destruct (Ascii.eqb_spec a "-") as [-> | _].
    - exfalso. now apply Hfirst.
    - now apply drop_last_char_keep. }
  rewrite Hstrip. now apply substring0_all.
Qed.

(** A slug cut at a hyphen: the slug of the slug is shorter. *)
Example slugify_cut_at_hyphen :
  let s := "aaaaaaaaaaaaaaaaaaaaaaaaaaaaaaaaaaaaaaaaaaaaaaaaaaaaaaaaaaa bc" in
  last_char (slugify s) = Some "-"%char ∧
  String.length (slugify s) = 60%nat ∧
  String.length (slugify (slugify s)) = 59%nat.
Proof. vm_compute. repeat split. Qed.

(** ** The CSV export, read back *)

Lemma append_assoc' a b c : (a +:+ b) +:+ c = a +:+ b +:+ c.
Proof.
  induction a as [| x a IH]; [reflexivity |].
  rewrite !append_String. now rewrite IH.
Qed.

Lemma append_nil_r' a : a +:+ EmptyString = a.
Proof. induction a as [| x a IH]; [reflexivity |]. rewrite append_String. now rewrite IH. Qed.

Lemma append_dq_inj a b : a +:+ JS.dq = b +:+ JS.dq → a = b.
Proof.
  revert b. induction a as [| x a IH]; intros [| y b] H.
  - reflexivity.
  - rewrite append_nil_l, append_String in H. injection H as _ H.
    destruct b; discriminate.
  - rewrite append_nil_l, append_String in H. injection H as _ H.
    destruct a; discriminate.
  - rewrite !append_String in H. injection H as -> H. f_equal. now apply IH.
Qed.

Lemma double_quotes_inj a : ∀ b,
  JS.replace_char "034" (JS.dq +:+ JS.dq) a
  = JS.replace_char "034" (JS.dq +:+ JS.dq) b → a = b.
Proof.
  induction a as [| x a IH]; intros [| y b]; cbn [JS.replace_char].
  - reflexivity.
  - destruct (Ascii.eqb y "034"); discriminate.
  - destruct (Ascii.eqb x "034"); discriminate.
  - destruct (Ascii.eqb_spec x "034") as [-> | Hx],
             (Ascii.eqb_spec y "034") as [-> | Hy].
    + intros H. injection H as H. f_equal. now apply IH.
    + intros H. injection H as <- H. contradiction.
    + intros H. injection H as -> H. contradiction.
    + intros H. injection H as -> H. f_equal. now apply IH.
Qed.

Lemma includes_dq_first s : JS.includes JS.dq (JS.dq +:+ s) = true.
Proof.
  unfold JS.dq. rewrite append_String, append_nil_l.
  apply includes_char. now left.
Qed.

(** X4. Two values with the same CSV field are the same value. *)
Theorem X4_csvEscape_injective a b : csvEscape a = csvEscape b → a = b.
Proof.
  unfold csvEscape.
  destruct (JS.includes JS.dq a || JS.includes "," a || JS.includes JS.nl a) eqn:Qa,
           (JS.includes JS.dq b || JS.includes "," b || JS.includes JS.nl b) eqn:Qb.
  - intros H. injection H as H. apply append_dq_inj in H.
    now apply double_quotes_inj.
  - intros <-. rewrite includes_dq_first in Qb. discriminate.
  - intros ->. rewrite includes_dq_first in Qa. discriminate.
  - auto.
Qed.

(** The reader on a field without comma or line feed, once past its
    first character. *)
Lemma read_csv_bare v : ∀ rows row field rest,
  JS.includes "," v = false → JS.includes JS.nl v = false →
  read_csv_from Bare rows row field (v +:+ rest)
  = read_csv_from Bare rows row (field +:+ v) rest.
Proof.
  induction v as [| c v IH]; intros rows row field rest Hc Hn.
  - now rewrite append_nil_l, append_nil_r'.
  - apply (includes_char_false ",") in Hc. apply (includes_char_false "010") in Hn.
    cbn [list_ascii_of_string In] in Hc, Hn.
    rewrite append_String. cbn [read_csv_from].
    destruct (Ascii.eqb_spec c ",") as [-> | _]; [exfalso; apply Hc; now left |].
    destruct (Ascii.eqb_spec c "010") as [-> | _]; [exfalso; apply Hn; now left |].
    rewrite IH.
    + rewrite append_assoc'. reflexivity.
    + apply (includes_char_false ","). tauto.
    + apply (includes_char_false "010"). tauto.
Qed.

Lemma dq_dq_append x :
  (JS.dq +:+ JS.dq) +:+ x = String "034" (String "034" x).
Proof. reflexivity. Qed.

Lemma dq_append x : JS.dq +:+ x = String "034" x.
Proof. reflexivity. Qed.

(** The reader inside a quoted field, up to the quote that closes it. *)
Lemma read_csv_quoted v : ∀ rows row field rest,
  read_csv_from Quoted rows row field
    (JS.replace_char "034" (JS.dq +:+ JS.dq) v +:+ JS.dq +:+ rest)
  = read_csv_from QuoteSeen rows row (field +:+ v) rest.
Proof.
  induction v as [| c v IH]; intros rows row field rest.
  - cbn [JS.replace_char]. rewrite append_nil_l, append_nil_r'. reflexivity.
  - cbn [JS.replace_char]. destruct (Ascii.eqb_spec c "034") as [-> | Hc].
    + rewrite dq_dq_append, !append_String.
      cbn [read_csv_from Ascii.eqb Bool.eqb andb].
      rewrite IH. rewrite append_assoc'. reflexivity.
    + rewrite append_String. cbn [read_csv_from].
      destruct (Ascii.eqb_spec c "034") as [? | _]; [contradiction |].
      rewrite IH. rewrite append_assoc'. reflexivity.
Qed.

(** After a field the reader is in a mode that a separator closes. *)
Lemma read_csv_field v :
  ∃ m, m ≠ Quoted ∧
    ∀ rows row rest,
      read_csv_from FieldStart rows row EmptyString (csvEscape v +:+ rest)
      = read_csv_from m rows row v rest.
Proof.
  unfold csvEscape.
  destruct (JS.includes JS.dq v) eqn:Eq; cbn [orb].
  { exists QuoteSeen. split; [discriminate |]. intros rows row rest.
    rewrite !append_assoc', dq_append.
    cbn [read_csv_from Ascii.eqb Bool.eqb andb].
    now rewrite read_csv_quoted, append_nil_l. }
  destruct (JS.includes "," v) eqn:Ec; cbn [orb].
  { exists QuoteSeen. split; [discriminate |]. intros rows row rest.
    rewrite !append_assoc', dq_append.
    cbn [read_csv_from Ascii.eqb Bool.eqb andb].
    now rewrite read_csv_quoted, append_nil_l. }
  destruct (JS.includes JS.nl v) eqn:En.
  { exists QuoteSeen. split; [discriminate |]. intros rows row rest.
    rewrite !append_assoc', dq_append.
    cbn [read_csv_from Ascii.eqb Bool.eqb andb].
    now rewrite read_csv_quoted, append_nil_l. }
  destruct v as [| c v].
  - exists FieldStart. split; [discriminate |]. intros. now rewrite append_nil_l.
  - exists Bare. split; [discriminate |]. intros rows row rest.
    pose proof Eq as Eq'. pose proof Ec as Ec'. pose proof En as En'.
    apply (includes_char_false "034") in Eq'.
    apply (includes_char_false ",") in Ec'.
    apply (includes_char_false "010") in En'.
    cbn [list_ascii_of_string In] in Eq', Ec', En'.
    rewrite append_String. cbn [read_csv_from].
    destruct (Ascii.eqb_spec c ",") as [-> | _]; [exfalso; apply Ec'; now left |].
    destruct (Ascii.eqb_spec c "010") as [-> | _]; [exfalso; apply En'; now left |].
    destruct (Ascii.eqb_spec c "034") as [-> | _]; [exfalso; apply Eq'; now left |].
    rewrite read_csv_bare.
    + reflexivity.
    + apply (includes_char_false ","). tauto.
    + apply (includes_char_false "010"). tauto.
Qed.

Lemma read_csv_comma m rows row field rest :
  m ≠ Quoted →
  read_csv_from m rows row field ("," +:+ rest)
  = read_csv_from FieldStart rows (row ++ [field]) EmptyString rest.
Proof.
  intros Hm. rewrite append_String, append_nil_l.
  destruct m; try contradiction; reflexivity.
Qed.

Lemma read_csv_nl m rows row field rest :
  m ≠ Quoted →
  read_csv_from m rows row field (JS.nl +:+ rest)
  = read_csv_from FieldStart (rows ++ [row ++ [field]]) [] EmptyString rest.
Proof.
  intros Hm. unfold JS.nl. rewrite append_String, append_nil_l.
  destruct m; try contradiction; reflexivity.
Qed.

Lemma read_csv_end m rows row field :
  read_csv_from m rows row field EmptyString = rows ++ [row ++ [field]].
Proof. destruct m; reflexivity. Qed.

Lemma join_cons sep x y l :
  JS.join sep (x :: y :: l) = x +:+ sep +:+ JS.join sep (y :: l).
Proof. reflexivity. Qed.

Lemma join_singleton sep x : JS.join sep [x] = x.
Proof. reflexivity. Qed.

(** A record followed by a line feed, and a record at the end. *)
Lemma read_csv_record_nl fs : ∀ v rows row rest,
  read_csv_from FieldStart rows row EmptyString
    (JS.join "," (csvEscape v :: map csvEscape fs) +:+ JS.nl +:+ rest)
  = read_csv_from FieldStart (rows ++ [row ++ v :: fs]) [] EmptyString rest.
Proof.
  induction fs as [| w fs IH]; intros v rows row rest.
  - cbn [map]. rewrite join_singleton.
    destruct (read_csv_field v) as (m & Hm & ->).
    now apply read_csv_nl.
  - cbn [map]. rewrite join_cons, !append_assoc'.
    destruct (read_csv_field v) as (m & Hm & ->).
    rewrite read_csv_comma by exact Hm.
    rewrite IH. now rewrite <- app_assoc.
Qed.

Lemma read_csv_record_end fs : ∀ v rows row,
  read_csv_from FieldStart rows row EmptyString
    (JS.join "," (csvEscape v :: map csvEscape fs))
  = rows ++ [row ++ v :: fs].
Proof.
  induction fs as [| w fs IH]; intros v rows row.
  - cbn [map]. rewrite join_singleton, <- (append_nil_r' (csvEscape v)).
    destruct (read_csv_field v) as (m & Hm & ->). apply read_csv_end.
  - cbn [map]. rewrite join_cons.
    destruct (read_csv_field v) as (m & Hm & ->).
    rewrite read_csv_comma by exact Hm.
    rewrite IH. now rewrite <- app_assoc.
Qed.

(** Records joined by line feeds are read back one by one. *)
Lemma read_csv_records (records : list (string * list string)) :
  ∀ v fs rows,
  read_csv_from FieldStart rows [] EmptyString
    (JS.join JS.nl
       (JS.join "," (csvEscape v :: map csvEscape fs) ::
        map (fun r => JS.join "," (csvEscape r.1 :: map csvEscape r.2)) records))
  = rows ++ (v :: fs) :: map (fun r => r.1 :: r.2) records.
Proof.
  induction records as [| [w gs] records IH]; intros v fs rows.
  - cbn [map]. rewrite join_singleton. now rewrite read_csv_record_end.
  - cbn [map fst snd]. rewrite join_cons.
    rewrite read_csv_record_nl. cbn [app].
    rewrite IH. now rewrite <- app_assoc.
Qed.

Lemma toCalendarCsv_records events :
  toCalendarCsv events
  = JS.join JS.nl
      (JS.join "," (csvEscape "date" :: map csvEscape ["channel"; "title"; "notes"]) ::
       map (fun r => JS.join "," (csvEscape r.1 :: map csvEscape r.2))
         (map (fun ev => (CalendarEvent.date ev,
                          [CalendarEvent.channel ev; CalendarEvent.title ev;
                           CalendarEvent.notes ev])) events)).
Proof.
  unfold toCalendarCsv.
  rewrite (fold_left_push (fun ev => [JS.join "," _])).
  rewrite concat_map_singleton. cbn [app]. do 2 f_equal.
  rewrite map_map. reflexivity.
Qed.

(** X5. Read back as comma-separated values, the text of
    [toCalendarCsv] gives the header record and then, for each event, in
    order, its date, channel, title and notes, whatever commas, quotes
    and line feeds they hold. *)
Theorem X5_csv_read_back events :
  read_csv (toCalendarCsv events)
  = ["date"; "channel"; "title"; "notes"] ::
    map (fun ev => [CalendarEvent.date ev; CalendarEvent.channel ev;
                    CalendarEvent.title ev; CalendarEvent.notes ev])
      events.
Proof.
  unfold read_csv. rewrite toCalendarCsv_records, read_csv_records.
  cbn [app]. f_equal. rewrite map_map. reflexivity.
Qed.

Lemma count_char_app c a b :
  count_char c (a +:+ b) = (count_char c a + count_char c b)%nat.
Proof.
  induction a as [| x a IH]; [reflexivity |].
  rewrite append_String. cbn [count_char]. rewrite IH. lia.
Qed.

Lemma text_lines_length s : ∀ cur,
  length (text_lines cur s) = S (count_char "010" s).
Proof.
  induction s as [| c s IH]; intros cur; [reflexivity |].
  cbn [text_lines count_char]. destruct (Ascii.eqb c "010"); cbn [length];
    rewrite IH; lia.
Qed.

Lemma count_nl_double_quotes v :
  count_char "010" (JS.replace_char "034" (JS.dq +:+ JS.dq) v)
  = count_char "010" v.
Proof.
  induction v as [| c v IH]; [reflexivity |].
  cbn [JS.replace_char]. destruct (Ascii.eqb_spec c "034") as [-> | _].
  - rewrite dq_dq_append. cbn [count_char Ascii.eqb Bool.eqb andb]. exact IH.
  - cbn [count_char]. now rewrite IH.
Qed.

(** Quoting adds no line feed to a field, and removes none. *)
Lemma count_nl_csvEscape v :
  count_char "010" (csvEscape v) = count_char "010" v.
Proof.
  unfold csvEscape. destruct (_ || _); [| reflexivity].
  rewrite !count_char_app, count_nl_double_quotes. cbn. lia.
Qed.

Lemma list_sum_cons' x l : list_sum (x :: l) = (x + list_sum l)%nat.
Proof. reflexivity. Qed.

Lemma count_nl_rows (rows : list string) : ∀ first,
  count_char "010" (JS.join JS.nl (first :: rows))
  = (count_char "010" first + length rows
     + list_sum (map (count_char "010") rows))%nat.
Proof.
  induction rows as [| r rows IH]; intros first.
  - rewrite join_singleton. cbn. lia.
  - rewrite join_cons, !count_char_app, IH.
    replace (count_char "010" JS.nl) with 1%nat by reflexivity.
    cbn [length map]. rewrite list_sum_cons'. lia.
Qed.

(** X6. The CSV text has one line for the header, one per event, and
    one more for every line feed inside a date, channel, title or
    notes: a field that holds a line feed spreads its record over
    several lines. *)
Theorem X6_csv_line_count events :
  length (text_lines EmptyString (toCalendarCsv events))
  = (1 + length events
     + list_sum
         (map (fun ev =>
                 count_char "010" (CalendarEvent.date ev)
                 + count_char "010" (CalendarEvent.channel ev)
                 + count_char "010" (CalendarEvent.title ev)
                 + count_char "010" (CalendarEvent.notes ev)) events))%nat.
Proof.
  rewrite text_lines_length, toCalendarCsv_records, count_nl_rows.
  rewrite !length_map, map_map, map_map.
  cbn [map]. rewrite !join_cons, join_singleton, !count_char_app.
  cbn [count_char csvEscape]. 
  replace (count_char "010" (csvEscape "date")) with 0%nat by reflexivity.
  replace (count_char "010" (csvEscape "channel")) with 0%nat by reflexivity.
  replace (count_char "010" (csvEscape "title")) with 0%nat by reflexivity.
  replace (count_char "010" (csvEscape "notes")) with 0%nat by reflexivity.
  replace (count_char "010" ",") with 0%nat by reflexivity.
  cbn [Nat.add]. do 2 f_equal. f_equal.
  apply map_ext. intros ev. cbn [fst snd map].
  rewrite !join_cons, join_singleton, !count_char_app, !count_nl_csvEscape.
  replace (count_char "010" ",") with 0%nat by reflexivity. lia.
Qed.

(** ** The export bundle *)

Lemma buildExportBundle_nil input strategy assets :
  buildExportBundle input strategy assets []
  = Ok {| bundle_input := input; bundle_strategy := strategy;
          bundle_assets := assets; bundle_calendar := [];
          ics := JS.join JS.nl
                   [ "BEGIN:VCALENDAR"; "VERSION:2.0";
                     "PRODID:-//Campaign Agent//EN"; "END:VCALENDAR" ];
          csv := {| calendar_csv := "date,channel,title,notes" |} |}.
Proof. reflexivity. Qed.

Lemma buildExportBundle_cons input strategy assets ev calendar :
  buildExportBundle input strategy assets (ev :: calendar) = Throw TypeError.
Proof. reflexivity. Qed.

(** X8. [buildExportBundle] returns a bundle for the empty calendar
    only; on a calendar with an event it raises the [TypeError] of
    [buildIcs]. The bundle it returns carries the input, the strategy
    and the assets it was given, the four-line calendar file without
    event and the CSV made of the header alone. *)
Theorem X8_export_bundle_returns input strategy assets calendar :
  ((∃ b, buildExportBundle input strategy assets calendar = Ok b)
   ↔ calendar = []) ∧
  ((∃ e, buildExportBundle input strategy assets calendar = Throw e)
   ↔ buildExportBundle input strategy assets calendar = Throw TypeError) ∧
  ∀ b, buildExportBundle input strategy assets calendar = Ok b →
    bundle_input b = input ∧ bundle_strategy b = strategy ∧
    bundle_assets b = assets ∧ bundle_calendar b = [] ∧
    buildIcs calendar = Ok (ics b) ∧
    text_lines EmptyString (ics b)
    = [ "BEGIN:VCALENDAR"; "VERSION:2.0"; "PRODID:-//Campaign Agent//EN";
        "END:VCALENDAR" ] ∧
    calendar_csv (csv b) = "date,channel,title,notes".
Proof.
  destruct calendar as [| ev calendar].
  - rewrite buildExportBundle_nil. split; [| split].
    + split; [reflexivity | intros _; eexists; reflexivity].
    + split; [intros [e H]; discriminate H | discriminate].
    + intros b [= <-]. repeat split.
  - rewrite buildExportBundle_cons. split; [| split].
    + split; [intros [b H]; discriminate H | discriminate].
    + split; [reflexivity | intros _; eexists; reflexivity].
    + intros b H. discriminate H.
Qed.

(** ** The lines of a text *)

Lemma includes_nl_count s :
  JS.includes JS.nl s = false ↔ count_char "010" s = 0%nat.
Proof.
  unfold JS.nl. rewrite includes_char_false.
  induction s as [| c s IH]; cbn [list_ascii_of_string In count_char].
  - tauto.
  - destruct (Ascii.eqb_spec c "010") as [-> | Hc].
    + split; [intros H; exfalso; apply H; now left | discriminate].
    + cbn [Nat.add]. rewrite <- IH. split.
      * intros H Hin. apply H. now right.
      * intros H [-> | Hin]; [contradiction | now apply H].
Qed.

Lemma text_lines_plain x : ∀ cur rest,
  count_char "010" x = 0%nat →
  text_lines cur (x +:+ rest) = text_lines (cur +:+ x) rest.
Proof.
  induction x as [| c x IH]; intros cur rest Hx.
  - now rewrite append_nil_l, append_nil_r'.
  - rewrite append_String. cbn [text_lines count_char] in *.
    destruct (Ascii.eqb c "010"); [discriminate |].
    rewrite IH by exact Hx. now rewrite append_assoc'.
Qed.

(** Lines without line feed, joined by line feeds, are the lines of
    the text. *)
Lemma text_lines_join (l : list string) : ∀ x,
  Forall (fun line => count_char "010" line = 0%nat) (x :: l) →
  text_lines EmptyString (JS.join JS.nl (x :: l)) = x :: l.
Proof.
  induction l as [| y l IH]; intros x Hall.
  - rewrite join_singleton, <- (append_nil_r' x).
    apply Forall_cons in Hall as [Hx _].
    rewrite text_lines_plain by exact Hx. now rewrite append_nil_r', append_nil_l.
  - apply Forall_cons in Hall as [Hx Hall].
    rewrite join_cons, text_lines_plain by exact Hx.
    unfold JS.nl at 1. rewrite append_String, !append_nil_l.
    cbn [text_lines Ascii.eqb Bool.eqb andb]. f_equal. now apply IH.
Qed.

(** ** The calendar: failures, dependencies and the duration *)

Section CalendarMore.
Context {U : UrlApi}.
Import Dayjs DayjsFacts.

(** X9. [buildCalendar] returns a calendar exactly on the schedulable
    inputs: the start date and the date of every slot are valid dates,
    and the two e-mails exist when Email is requested. On every other
    input it throws. *)
Theorem X9_buildCalendar_returns_iff input strategy assets :
  (∃ events, buildCalendar input strategy assets = Ok events)
  ↔ schedulable input assets.
Proof. apply buildCalendar_returns. Qed.

(** X10. With Email requested and fewer than two e-mails in the assets,
    [buildCalendar] throws a [TypeError] once the dates before the
    missing e-mail are valid; with an invalid start date it throws a
    [RangeError]. *)
Theorem X10_buildCalendar_throws input strategy assets :
  (startDate input = None →
   buildCalendar input strategy assets = Throw RangeError) ∧
  (∀ ms, startDate input = Some ms →
     (∀ k, 0 <= k <= 2 + 2 * Z.of_nat (length (social assets)) →
           in_range (start_of ms + k * MS_DAY) = true) →
     "Email" ∈ channels input → (length (emails assets) < 2)%nat →
     buildCalendar input strategy assets = Throw TypeError).
Proof.
  split.
  - intros Hstart. unfold buildCalendar.
    now rewrite generateEvents_invalid_start.
  - intros ms Hstart Hdates Hemail Hlen.
    unfold buildCalendar, generateEvents. rewrite Hstart.
    change (startOf_day (Some ms)) with (Some (start_of ms)). cbv zeta.
    rewrite push_eq, Hdates by lia. cbn [mbind Result_bind].
    rewrite forEach_social_eq. cbv zeta.
    assert (Hsoc : forallb (fun sl => in_range (start_of ms + offset sl * MS_DAY))
              (imap (fun i p =>
                       {| offset := 1 + 2 * Z.of_nat i;
                          slot_channel := Social.channel p;
                          slot_title := "Social post";
                          slot_notes := Social.text p |}) (social assets))
            = true).
    { apply forallb_forall. intros sl Hin.
      apply list_elem_of_In, elem_of_lookup_imap in Hin as (i & p & -> & Hi).
      apply lookup_lt_Some in Hi. cbn [offset]. apply Hdates. lia. }
    rewrite Hsoc. cbn [mbind Result_bind].
    unfold JS.arr_includes. rewrite (bool_decide_eq_true_2 ("Email" ∈ channels input)) by exact Hemail.
    destruct (emails assets) as [| e0 [| e1 es]]; cbn [length] in Hlen; try lia.
    + reflexivity.
    + cbn [lookup list_lookup prop mbind Result_bind].
      rewrite push_eq, Hdates by lia. reflexivity.
Qed.

(** X11. The calendar depends on the input through its goal, channels,
    landing URL, duration and the day of its start date only, on the
    assets through the social posts and the e-mails only, and not on
    the strategy. *)
Theorem X11_buildCalendar_depends_on i1 s1 a1 i2 s2 a2 :
  goal i1 = goal i2 → channels i1 = channels i2 →
  landingUrl i1 = landingUrl i2 → durationDays i1 = durationDays i2 →
  startOf_day (startDate i1) = startOf_day (startDate i2) →
  social a1 = social a2 → emails a1 = emails a2 →
  buildCalendar i1 s1 a1 = buildCalendar i2 s2 a2.
Proof.
  intros Hg Hc Hl Hd Hs Hsoc Hem.
  unfold buildCalendar, generateEvents, push, fullNotes.
  rewrite Hg, Hc, Hl, Hd, Hs, Hsoc, Hem. reflexivity.
Qed.

Lemma filter_all {A : Type} (P : A → bool) (l : list A) :
  (∀ a, a ∈ l → P a = true) → List.filter P l = l.
Proof.
  induction l as [| a l IH]; intros HP; [reflexivity |].
  cbn [List.filter]. rewrite HP by now left.
  f_equal. apply IH. intros a' Ha'. apply HP. now right.
Qed.

Lemma filter_none {A : Type} (P : A → bool) (l : list A) :
  (∀ a, a ∈ l → P a = false) → List.filter P l = [].
Proof.
  induction l as [| a l IH]; intros HP; [reflexivity |].
  cbn [List.filter]. rewrite HP by now left.
  apply IH. intros a' Ha'. apply HP. now right.
Qed.

Lemma pipeline_offsets input strategy sl :
  sl ∈ spec_schedule input (buildAssets input strategy) → offset sl <= 9.
Proof.
  unfold spec_schedule. rewrite !elem_of_app, elem_of_lookup_imap.
  intros [Hin | [(i & p & -> & Hi) | [Hin | [Hin | Hin]]]].
  - apply list_elem_of_singleton in Hin as ->. cbn. lia.
  - apply lookup_lt_Some in Hi. cbn [offset].
    assert ((length (social (buildAssets input strategy)) ≤ 3)%nat).
    { unfold buildAssets. cbn [social].
      repeat (destruct (JS.arr_includes _ _)); cbn; lia. }
    lia.
  - destruct (bool_decide _); [| now apply elem_of_nil in Hin].
    cbn [buildAssets emails] in Hin.
    apply elem_of_cons in Hin as [-> | Hin]; [cbn; lia |].
    apply list_elem_of_singleton in Hin as ->. cbn. lia.
  - destruct (bool_decide _); [| now apply elem_of_nil in Hin].
    apply list_elem_of_singleton in Hin as ->. cbn. lia.
  - apply list_elem_of_singleton in Hin as ->. cbn. lia.
Qed.

(** X12. In the pipeline a campaign of nine days or more loses no
    event to the filter: the calendar is the list of generated events,
    between two and eight of them. *)
Theorem X12_pipeline_keeps_all input strategy :
  schedulable input (buildAssets input strategy) →
  9 <= durationDays input →
  ∃ events,
    generateEvents input strategy (buildAssets input strategy) = Ok events ∧
    buildCalendar input strategy (buildAssets input strategy) = Ok events ∧
    (2 ≤ length events ≤ 8)%nat.
Proof.
  intros (ms & Hstart & Hsch) Hd.
  exists (map (event_of input (start_of ms))
            (spec_schedule input (buildAssets input strategy))).
  split; [now apply generateEvents_ok |].
  split.
  - rewrite (buildCalendar_ok _ _ _ ms Hstart Hsch). do 2 f_equal.
    apply filter_all. intros sl Hin. apply Z.leb_le.
    pose proof (pipeline_offsets input strategy sl Hin). lia.
  - rewrite length_map. unfold spec_schedule.
    rewrite !length_app, length_imap. unfold buildAssets.
    cbn [social emails length].
    repeat (destruct (JS.arr_includes _ _)); repeat (destruct (bool_decide _));
      cbn [length app]; lia.
Qed.

(** X13. A negative duration gives an empty calendar, not an error. *)
Theorem X13_negative_duration input strategy assets :
  schedulable input assets → durationDays input < 0 →
  buildCalendar input strategy assets = Ok [].
Proof.
  intros (ms & Hstart & Hsch) Hd.
  rewrite (buildCalendar_ok _ _ _ ms Hstart Hsch). f_equal.
  rewrite filter_none; [reflexivity |].
  intros sl Hin. apply Z.leb_gt.
  pose proof (schedule_offsets input assets sl Hin). lia.
Qed.

Lemma Ok_inj {A : Type} (a b : A) : Ok a = Ok b → a = b.
Proof. congruence. Qed.

Lemma filter_sublist_mono {A : Type} (P Q : A → bool) (l : list A) :
  (∀ a, P a = true → Q a = true) →
  sublist (List.filter P l) (List.filter Q l).
Proof.
  intros HPQ. induction l as [| a l IH]; [constructor |].
  cbn [List.filter]. destruct (P a) eqn:Ep.
  - rewrite (HPQ a Ep). now constructor.
  - destruct (Q a); [now constructor | exact IH].
Qed.

Lemma map_sublist {A B : Type} (f : A → B) (l1 l2 : list A) :
  sublist l1 l2 → sublist (map f l1) (map f l2).
Proof. induction 1; cbn [map]; now constructor. Qed.

(** X14. A longer campaign keeps the events of a shorter one: with the
    rest of the input the same, the calendar of the shorter duration is
    a sublist of the calendar of the longer one. *)
Theorem X14_duration_monotone i1 i2 strategy assets k1 k2 :
  goal i1 = goal i2 → channels i1 = channels i2 →
  landingUrl i1 = landingUrl i2 → startDate i1 = startDate i2 →
  durationDays i1 <= durationDays i2 →
  buildCalendar i1 strategy assets = Ok k1 →
  buildCalendar i2 strategy assets = Ok k2 →
  sublist k1 k2.
Proof.
  intros Hg Hc Hl Hs Hd H1 H2.
  destruct (proj1 (buildCalendar_returns i1 strategy assets)
              (ex_intro _ k1 H1)) as (ms & Hstart1 & Hsch1).
  destruct (proj1 (buildCalendar_returns i2 strategy assets)
              (ex_intro _ k2 H2)) as (ms2 & Hstart2 & Hsch2).
  rewrite Hs, Hstart2 in Hstart1. injection Hstart1 as ->.
  assert (Hstart1 : startDate i1 = Some ms) by now rewrite Hs.
  rewrite (buildCalendar_ok _ _ _ ms Hstart1 Hsch1) in H1.
  rewrite (buildCalendar_ok _ _ _ ms Hstart2 Hsch2) in H2.
  apply Ok_inj in H1, H2. subst k1 k2.
  assert (Hev : event_of i1 (start_of ms) = event_of i2 (start_of ms)).
  { unfold event_of, fullNotes. now rewrite Hg, Hl. }
  assert (Hsched : spec_schedule i1 assets = spec_schedule i2 assets).
  { unfold spec_schedule. now rewrite Hc. }
  rewrite Hev, Hsched. apply map_sublist, filter_sublist_mono.
  intros sl Hle. apply Z.leb_le in Hle. apply Z.leb_le. lia.
Qed.

End CalendarMore.

(** ** Assets and strategy: the channel list as a set *)

(** X15. The social posts are for LinkedIn, X/Twitter and Instagram, in
    this order, one for each of them that is requested: the order of
    the requested channels and their repetitions do not matter, and two
    channel lists with the same members give the same posts. *)
Theorem X15_social_channel_set input strategy :
  map Social.channel (social (buildAssets input strategy))
  = List.filter (fun c => bool_decide (c ∈ channels input))
      ["LinkedIn"; "X/Twitter"; "Instagram"] ∧
  ∀ input',
    productName input' = productName input →
    (∀ c, c ∈ channels input' ↔ c ∈ channels input) →
    social (buildAssets input' strategy) = social (buildAssets input strategy).
Proof.
  split.
  - unfold buildAssets, JS.arr_includes. cbn [social List.filter].
    repeat (destruct (bool_decide _)); reflexivity.
  - intros input' Hname Hset. unfold buildAssets, JS.arr_includes. cbn [social].
    rewrite Hname.
    rewrite (bool_decide_ext _ _ (Hset "LinkedIn")),
            (bool_decide_ext _ _ (Hset "X/Twitter")),
            (bool_decide_ext _ _ (Hset "Instagram")).
    reflexivity.
Qed.

(** X16. The channel plan holds the same entry under every key for two
    inputs that request the same channels, in whatever order and
    however many times. *)
Theorem X16_channelsPlan_channel_set i1 i2 :
  (∀ c, c ∈ channels i1 ↔ c ∈ channels i2) →
  ∀ k, channelsPlan (buildStrategy i1) !! k
       = channelsPlan (buildStrategy i2) !! k.
Proof.
  intros Hset k. cbn [buildStrategy channelsPlan].
  rewrite !channelsPlan_lookup.
  destruct (decide (k ∈ channels i1)) as [H1 | H1],
           (decide (k ∈ channels i2)) as [H2 | H2];
    try reflexivity; exfalso; apply Hset in H1 || apply Hset in H2; contradiction.
Qed.

(** ** Capitalisation *)

Lemma upper_char_idempotent c : JS.upper_char (JS.upper_char c) = JS.upper_char c.
Proof.
  unfold JS.upper_char. destruct (JS.is_lower c) eqn:E; [| now rewrite E].
  unfold JS.is_lower in *. apply andb_true_iff in E as [E1 E2].
  apply Nat.leb_le in E1, E2.
  rewrite nat_ascii_embedding by lia.
  destruct (Nat.leb_spec 97 (nat_of_ascii c - 32)); [lia | reflexivity].
Qed.

Lemma upper_char_ascii c :
  JS.is_ascii_char c = true → JS.is_ascii_char (JS.upper_char c) = true.
Proof.
  destruct c as [[] [] [] [] [] [] [] []]; intros H; try reflexivity;
    discriminate H.
Qed.

(** X17. On ASCII text [sentenceCase] changes at most the first
    character: the length and everything after the first character
    stay, the result is ASCII text, and applying it twice is applying
    it once. *)
Theorem X17_sentenceCase_first_only s :
  JS.is_ascii s = true →
  String.length (sentenceCase s) = String.length s ∧
  String.substring 1 (String.length s) (sentenceCase s)
  = String.substring 1 (String.length s) s ∧
  JS.is_ascii (sentenceCase s) = true ∧
  sentenceCase (sentenceCase s) = sentenceCase s.
Proof.
  destruct s as [| c r]; [repeat split |].
  cbn [sentenceCase JS.is_ascii]. intros [Hc Hr]%andb_true_iff.
  repeat split.
  - now rewrite upper_char_ascii, Hr.
  - now rewrite upper_char_idempotent.
Qed.

(** ** UTM links and the parameters of the landing URL *)

Section UtmMore.
Context {U : UrlApi}.

(** X18. On a valid base URL [buildUtmUrl] sets [utm_source],
    [utm_medium] and [utm_campaign], sets [utm_content] only when a
    non-empty content is given, and leaves every other query parameter
    of the URL as it was; without content the [utm_content] of the base
    URL stays. *)
Theorem X18_buildUtmUrl_parameters baseUrl u params :
  URL_new baseUrl = Some u →
  ∃ u', buildUtmUrl baseUrl params = URL_toString u' ∧
    searchParams_get u' "utm_source" = Some (source params) ∧
    searchParams_get u' "utm_medium" = Some (medium params) ∧
    searchParams_get u' "utm_campaign" = Some (campaign params) ∧
    searchParams_get u' "utm_content"
    = (if JS.truthy (content params) then Some (JS.splice (content params))
       else searchParams_get u "utm_content") ∧
    ∀ k, k ∉ ["utm_source"; "utm_medium"; "utm_campaign"; "utm_content"] →
         searchParams_get u' k = searchParams_get u k.
Proof.
  intros Hnew. unfold buildUtmUrl. rewrite Hnew.
  eexists. split; [reflexivity |].
  destruct (JS.truthy (content params)).
  - repeat split.
    + rewrite !searchParams_get_set_ne by discriminate.
      apply searchParams_get_set_eq.
    + rewrite !searchParams_get_set_ne by discriminate.
      apply searchParams_get_set_eq.
    + rewrite !searchParams_get_set_ne by discriminate.
      apply searchParams_get_set_eq.
    + apply searchParams_get_set_eq.
    + intros k Hk. rewrite !not_elem_of_cons in Hk.
      destruct Hk as (H1 & H2 & H3 & H4 & _).
      now rewrite !searchParams_get_set_ne by congruence.
  - repeat split.
    + rewrite !searchParams_get_set_ne by discriminate.
      apply searchParams_get_set_eq.
    + rewrite !searchParams_get_set_ne by discriminate.
      apply searchParams_get_set_eq.
    + apply searchParams_get_set_eq.
    + now rewrite !searchParams_get_set_ne by discriminate.
    + intros k Hk. rewrite !not_elem_of_cons in Hk.
      destruct Hk as (H1 & H2 & H3 & H4 & _).
      now rewrite !searchParams_get_set_ne by congruence.
Qed.

End UtmMore.

(** ** The channel buttons of the form *)

Lemma filter_ne_elem (ch c : string) (l : list string) :
  c ∈ List.filter (fun x => negb (String.eqb x ch)) l ↔ c ≠ ch ∧ c ∈ l.
Proof.
  rewrite !list_elem_of_In, filter_In. rewrite negb_true_iff.
  split.
  - intros [Hin Hne]. split; [| exact Hin].
    intros ->. now rewrite String.eqb_refl in Hne.
  - intros [Hne Hin]. split; [exact Hin |]. now apply String.eqb_neq.
Qed.

(** X19. A click on a channel button flips that channel, in or out of
    the selection, and leaves the other channels and the other fields
    of the form as they were. *)
Theorem X19_onToggleChannel_flips ch f :
  (∀ c, c ∈ form_channels (onToggleChannel ch f)
        ↔ (c = ch ∧ ch ∉ form_channels f) ∨ (c ≠ ch ∧ c ∈ form_channels f)) ∧
  (form_goal (onToggleChannel ch f), form_productName (onToggleChannel ch f),
   form_productDescription (onToggleChannel ch f),
   form_audience (onToggleChannel ch f), form_tone (onToggleChannel ch f),
   form_budget (onToggleChannel ch f), form_startDate (onToggleChannel ch f),
   form_durationDays (onToggleChannel ch f),
   form_landingUrl (onToggleChannel ch f))
  = (form_goal f, form_productName f, form_productDescription f,
     form_audience f, form_tone f, form_budget f, form_startDate f,
     form_durationDays f, form_landingUrl f).
Proof.
  split; [| reflexivity].
  intros c. unfold onToggleChannel, JS.arr_includes. cbn [form_channels].
  destruct (bool_decide (ch ∈ form_channels f)) eqn:E.
  - apply bool_decide_eq_true in E. rewrite filter_ne_elem. split.
    + intros [Hne Hin]. now right.
    + intros [[-> Hnin] | [Hne Hin]]; [contradiction | now split].
  - apply bool_decide_eq_false in E. rewrite elem_of_app, list_elem_of_singleton.
    split.
    + intros [Hin | ->]; [right | now left].
      split; [| exact Hin]. intros ->. contradiction.
    + intros [[-> _] | [_ Hin]]; [now right | now left].
Qed.

Lemma NoDup_filter_ne (ch : string) (l : list string) :
  NoDup l → NoDup (List.filter (fun x => negb (String.eqb x ch)) l).
Proof.
  induction 1 as [| x l Hx Hl IH]; cbn [List.filter]; [constructor |].
  destruct (negb (String.eqb x ch)); [| exact IH].
  constructor; [| exact IH].
  rewrite filter_ne_elem. tauto.
Qed.

Lemma onToggleChannel_invariant ch f :
  ch ∈ defaultChannels →
  NoDup (form_channels f) → form_channels f ⊆ defaultChannels →
  NoDup (form_channels (onToggleChannel ch f)) ∧
  form_channels (onToggleChannel ch f) ⊆ defaultChannels.
Proof.
  intros Hch Hnd Hsub. unfold onToggleChannel, JS.arr_includes.
  cbn [form_channels].
  destruct (bool_decide (ch ∈ form_channels f)) eqn:E.
  - split; [now apply NoDup_filter_ne |].
    intros c Hc. apply filter_ne_elem in Hc as [_ Hc]. now apply Hsub.
  - apply bool_decide_eq_false in E. split.
    + apply NoDup_app. repeat split; [exact Hnd | | apply NoDup_singleton].
      intros c Hc Hc'. apply list_elem_of_singleton in Hc' as ->. contradiction.
    + intros c [Hc | Hc]%elem_of_app; [now apply Hsub |].
      now apply list_elem_of_singleton in Hc as ->.
Qed.

(** X20. Whatever buttons are clicked, a selection without repetition
    among the six channels stays one: the channels the form hands to
    the pipeline are distinct channels of the vocabulary, at most six
    of them. *)
Theorem X20_clicks_keep_selection clicks : ∀ f,
  clicks ⊆ defaultChannels →
  NoDup (form_channels f) → form_channels f ⊆ defaultChannels →
  NoDup (form_channels (after_clicks clicks f)) ∧
  Forall (fun ch => ch ∈ vocabulary) (form_channels (after_clicks clicks f)) ∧
  (length (form_channels (after_clicks clicks f)) ≤ 6)%nat.
Proof.
  induction clicks as [| ch clicks IH]; intros f Hclicks Hnd Hsub.
  - cbn [after_clicks fold_left]. split; [exact Hnd |]. split.
    + apply Forall_forall. intros c Hc. now apply Hsub.
    + change 6%nat with (length defaultChannels).
      apply submseteq_length, NoDup_submseteq; [exact Hnd | exact Hsub].
  - change (after_clicks (ch :: clicks) f)
      with (after_clicks clicks (onToggleChannel ch f)).
    destruct (onToggleChannel_invariant ch f) as [Hnd' Hsub'];
      [apply Hclicks; now left | exact Hnd | exact Hsub |].
    apply IH; [| exact Hnd' | exact Hsub'].
    intros c Hc. apply Hclicks. now right.
Qed.

Lemma filter_ne_permutation (ch : string) (l : list string) :
  NoDup l → ch ∈ l →
  List.filter (fun x => negb (String.eqb x ch)) l ++ [ch] ≡ₚ l.
Proof.
  induction 1 as [| x l Hx Hl IH]; intros Hin; [now apply elem_of_nil in Hin |].
  cbn [List.filter]. destruct (String.eqb_spec x ch) as [-> | Hne]; cbn [negb].
  - rewrite (filter_all _ l).
    + symmetry. apply Permutation_cons_append.
    + intros a Ha. apply negb_true_iff, String.eqb_neq. intros ->. contradiction.
  - apply elem_of_cons in Hin as [-> | Hin]; [contradiction |].
    cbn [app]. now rewrite IH.
Qed.

(** X21. Two clicks on the same button give back the selection: the
    same list when the channel was out, the same channels with the
    clicked one moved to the end when it was in. *)
Theorem X21_onToggleChannel_twice ch f :
  NoDup (form_channels f) →
  (ch ∉ form_channels f →
   form_channels (onToggleChannel ch (onToggleChannel ch f)) = form_channels f) ∧
  (ch ∈ form_channels f →
   form_channels (onToggleChannel ch (onToggleChannel ch f))
   = List.filter (fun x => negb (String.eqb x ch)) (form_channels f) ++ [ch]) ∧
  form_channels (onToggleChannel ch (onToggleChannel ch f)) ≡ₚ form_channels f.
Proof.
  intros Hnd.
  assert (Hout : ch ∉ form_channels f →
    form_channels (onToggleChannel ch (onToggleChannel ch f)) = form_channels f).
  { intros Hnin. unfold onToggleChannel, JS.arr_includes. cbn [form_channels].
    rewrite (bool_decide_eq_false_2 (ch ∈ form_channels f)) by exact Hnin.
    rewrite bool_decide_eq_true_2
      by (apply elem_of_app; right; now apply list_elem_of_singleton).
    rewrite List.filter_app. cbn [List.filter].
    rewrite String.eqb_refl. cbn [negb]. rewrite app_nil_r.
    apply filter_all. intros a Ha. apply negb_true_iff, String.eqb_neq.
    intros ->. contradiction. }
  assert (Hin : ch ∈ form_channels f →
    form_channels (onToggleChannel ch (onToggleChannel ch f))
    = List.filter (fun x => negb (String.eqb x ch)) (form_channels f) ++ [ch]).
  { intros Hin. unfold onToggleChannel, JS.arr_includes. cbn [form_channels].
    rewrite (bool_decide_eq_true_2 (ch ∈ form_channels f)) by exact Hin.
    rewrite bool_decide_eq_false_2; [reflexivity |].
    rewrite filter_ne_elem. tauto. }
  split; [exact Hout |]. split; [exact Hin |].
  destruct (decide (ch ∈ form_channels f)) as [H | H].
  - rewrite (Hin H). now apply filter_ne_permutation.
  - now rewrite (Hout H).
Qed.

(** ** The further theorems at concrete inputs *)

Lemma X3_witness :
  slugify (slugify "Increase signups by 30% in 30 days")
  = slugify "Increase signups by 30% in 30 days".
Proof.
  apply (X3_slugify_idempotent "Increase signups by 30% in 30 days").
  vm_compute. discriminate.
Defined.

Lemma X4_witness :
  csvEscape "a, b" = csvEscape "a, b" ∧ "a, b" = "a, b".
Proof.
  split; [reflexivity |].
  apply (X4_csvEscape_injective "a, b" "a, b"). reflexivity.
Defined.

Lemma X2_witness :
  JS.is_ascii "?! ... !?" = true ∧
  (slugify "?! ... !?" = EmptyString
   ↔ Forall (fun c => JS.is_alnum c = false)
       (list_ascii_of_string "?! ... !?")).
Proof.
  split; [reflexivity |].
  apply (X2_slugify_empty_iff "?! ... !?"). reflexivity.
Defined.

Lemma X17_witness :
  String.length (sentenceCase "increase signups")
  = String.length "increase signups" ∧
  String.substring 1 (String.length "increase signups")
    (sentenceCase "increase signups")
  = String.substring 1 (String.length "increase signups") "increase signups" ∧
  JS.is_ascii (sentenceCase "increase signups") = true ∧
  sentenceCase (sentenceCase "increase signups") = sentenceCase "increase signups".
Proof.
  apply (X17_sentenceCase_first_only "increase signups"). reflexivity.
Defined.

Lemma X10_witness :
  let input :=
    {| goal := "Grow"; productName := "Acme"; productDescription := EmptyString;
       audience := "teams"; tone := "clear"; channels := ["Email"];
       budget := 0; startDate := Some 1704067200000; durationDays := 14;
       landingUrl := None |} in
  let assets :=
    {| headlines := []; adCopy := []; emails := []; social := [] |} in
  buildCalendar (U := SimpleUrl.api) input (buildStrategy input) assets
  = Throw TypeError.
Proof.
  cbv zeta.
  apply (proj2 (X10_buildCalendar_throws (U := SimpleUrl.api) _ _ _)
           1704067200000).
  - reflexivity.
  - intros k Hk. cbn [social length] in Hk.
    assert (Hcases : k = 0 ∨ k = 1 ∨ k = 2) by lia.
    destruct Hcases as [-> | [-> | ->]]; reflexivity.
  - apply list_elem_of_In. now left.
  - cbn. lia.
Defined.

Lemma X11_witness :
  buildCalendar (U := SimpleUrl.api) full_launch (buildStrategy full_launch)
    (buildAssets full_launch (buildStrategy full_launch))
  = buildCalendar (U := SimpleUrl.api)
      {| goal := goal full_launch; productName := "Another name";
         productDescription := EmptyString; audience := "others";
         tone := "playful"; channels := channels full_launch; budget := 1;
         startDate := Some 1704100000000;
         durationDays := durationDays full_launch;
         landingUrl := landingUrl full_launch |}
      {| primaryMessage := EmptyString; valueProps := [];
         personaSummary := EmptyString; channelsPlan := ∅ |}
      {| headlines := []; adCopy := [];
         emails := emails (buildAssets full_launch (buildStrategy full_launch));
         social := social (buildAssets full_launch (buildStrategy full_launch)) |}.
Proof.
  apply (X11_buildCalendar_depends_on (U := SimpleUrl.api)); reflexivity.
Defined.

Lemma X12_witness :
  ∃ events,
    generateEvents (U := SimpleUrl.api) full_launch (buildStrategy full_launch)
      (buildAssets full_launch (buildStrategy full_launch)) = Ok events ∧
    buildCalendar (U := SimpleUrl.api) full_launch (buildStrategy full_launch)
      (buildAssets full_launch (buildStrategy full_launch)) = Ok events ∧
    (2 ≤ length events ≤ 8)%nat.
Proof.
  apply (X12_pipeline_keeps_all (U := SimpleUrl.api) full_launch
           (buildStrategy full_launch)).
  - exact full_launch_schedulable.
  - vm_compute. discriminate.
Defined.

Lemma X13_witness :
  let input :=
    {| goal := "Grow"; productName := "Acme"; productDescription := EmptyString;
       audience := "teams"; tone := "clear"; channels := ["Email"; "Ads"];
       budget := 0; startDate := Some 1704067200000; durationDays := -1;
       landingUrl := None |} in
  buildCalendar (U := SimpleUrl.api) input (buildStrategy input)
    (buildAssets input (buildStrategy input)) = Ok [].
Proof.
  cbv zeta. apply (X13_negative_duration (U := SimpleUrl.api)).
  - exists 1704067200000. split; [reflexivity | vm_compute; reflexivity].
  - cbn. lia.
Defined.

Lemma X14_witness :
  let with_duration d :=
    {| goal := goal one_week; productName := productName one_week;
       productDescription := EmptyString; audience := "teams"; tone := "clear";
       channels := channels one_week; budget := 0;
       startDate := Some 1704067200000; durationDays := d;
       landingUrl := landingUrl one_week |} in
  let calendar d :=
    match buildCalendar (U := SimpleUrl.api) (with_duration d)
            (buildStrategy one_week)
            (buildAssets one_week (buildStrategy one_week)) with
    | Ok events => events
    | Throw _ => []
    end in
  length (calendar 3) = 1%nat ∧ length (calendar 14) = 2%nat ∧
  sublist (calendar 3) (calendar 14).
Proof.
  cbv zeta. split; [vm_compute; reflexivity |]. split; [vm_compute; reflexivity |].
  apply (X14_duration_monotone (U := SimpleUrl.api)
           {| goal := goal one_week; productName := productName one_week;
              productDescription := EmptyString; audience := "teams";
              tone := "clear"; channels := channels one_week; budget := 0;
              startDate := Some 1704067200000; durationDays := 3;
              landingUrl := landingUrl one_week |}
           {| goal := goal one_week; productName := productName one_week;
              productDescription := EmptyString; audience := "teams";
              tone := "clear"; channels := channels one_week; budget := 0;
              startDate := Some 1704067200000; durationDays := 14;
              landingUrl := landingUrl one_week |}
           (buildStrategy one_week)
           (buildAssets one_week (buildStrategy one_week))).
  - reflexivity.
  - reflexivity.
  - reflexivity.
  - reflexivity.
  - cbn [durationDays]. lia.
  - vm_compute. reflexivity.
  - vm_compute. reflexivity.
Defined.

Lemma X16_witness :
  let i1 :=
    {| goal := "Grow"; productName := "Acme"; productDescription := EmptyString;
       audience := "teams"; tone := "clear";
       channels := ["Email"; "Website"; "Email"];
       budget := 0; startDate := None; durationDays := 14;
       landingUrl := None |} in
  let i2 :=
    {| goal := "Grow"; productName := "Acme"; productDescription := EmptyString;
       audience := "teams"; tone := "clear"; channels := ["Website"; "Email"];
       budget := 0; startDate := None; durationDays := 14;
       landingUrl := None |} in
  channelsPlan (buildStrategy i1) !! "Email"
  = channelsPlan (buildStrategy i2) !! "Email".
Proof.
  cbv zeta. apply X16_channelsPlan_channel_set.
  intros c. cbn [channels]. rewrite !elem_of_cons, !elem_of_nil. tauto.
Defined.

Lemma X18_witness :
  ∃ u', buildUtmUrl (U := SimpleUrl.api) "https://acme.example/start"
          {| source := "email"; medium := "email"; campaign := "grow";
             content := Some EmptyString |} = SimpleUrl.toString u' ∧
    SimpleUrl.get u' "utm_source" = Some "email" ∧
    SimpleUrl.get u' "utm_medium" = Some "email" ∧
    SimpleUrl.get u' "utm_campaign" = Some "grow" ∧
    SimpleUrl.get u' "utm_content"
    = SimpleUrl.get ("https://acme.example/start", []) "utm_content" ∧
    ∀ k, k ∉ ["utm_source"; "utm_medium"; "utm_campaign"; "utm_content"] →
         SimpleUrl.get u' k = SimpleUrl.get ("https://acme.example/start", []) k.
Proof.
  apply (X18_buildUtmUrl_parameters (U := SimpleUrl.api)
           "https://acme.example/start" ("https://acme.example/start", [])
           {| source := "email"; medium := "email"; campaign := "grow";
              content := Some EmptyString |}).
  reflexivity.
Defined.

Lemma X20_witness :
  let f := after_clicks ["Ads"; "Email"; "Ads"; "Instagram"]
             (initial_form "2024-01-01") in
  NoDup (form_channels f) ∧
  Forall (fun ch => ch ∈ vocabulary) (form_channels f) ∧
  (length (form_channels f) ≤ 6)%nat.
Proof.
  cbv zeta.
  apply (X20_clicks_keep_selection ["Ads"; "Email"; "Ads"; "Instagram"]
           (initial_form "2024-01-01")).
  - intros c Hc. unfold defaultChannels.
    rewrite !elem_of_cons, !elem_of_nil in *. tauto.
  - cbn [initial_form form_channels]. apply NoDup_ListNoDup.
    repeat (constructor; [cbn; intuition discriminate |]). constructor.
  - intros c Hc. unfold defaultChannels. cbn [initial_form form_channels] in Hc.
    rewrite !elem_of_cons, !elem_of_nil in *. tauto.
Defined.

Lemma X21_witness :
  let f := initial_form "2024-01-01" in
  form_channels (onToggleChannel "Email" (onToggleChannel "Email" f))
  = ["Website"; "LinkedIn"; "X/Twitter"; "Email"] ∧
  form_channels (onToggleChannel "Email" (onToggleChannel "Email" f))
  ≡ₚ form_channels f.
Proof.
  cbv zeta.
  destruct (X21_onToggleChannel_twice "Email" (initial_form "2024-01-01"))
    as (_ & Hin & Hperm).
  - cbn [initial_form form_channels]. apply NoDup_ListNoDup.
    repeat (constructor; [cbn; intuition discriminate |]). constructor.
  - split; [| exact Hperm].
    rewrite Hin; [reflexivity |].
    cbn [initial_form form_channels]. apply list_elem_of_In. cbn. tauto.
Defined.

(** ** Bulleted lists *)

(** X22. [bullets] writes one line per text, each with the prefix in
    front, in order, for a list that is not empty and whose texts hold
    no line feed; for the empty list it gives the empty text. *)
Theorem X22_bullets_lines (strings : list string) :
  Forall (fun s => JS.includes JS.nl s = false) strings →
  bullets [] = EmptyString ∧
  (strings ≠ [] →
   text_lines EmptyString (bullets strings)
   = map (fun s => "? " +:+ s) strings).
Proof.
  intros Hall. split; [reflexivity |].
  intros Hne. unfold bullets.
  destruct strings as [| s strings]; [contradiction |].
  cbn [map]. apply text_lines_join.
  change (("? " +:+ s) :: map (fun s0 => "? " +:+ s0) strings)
    with (map (fun s0 => "? " +:+ s0) (s :: strings)).
  apply Forall_forall. intros line Hline.
  apply list_elem_of_In, in_map_iff in Hline as (x & <- & Hx).
  rewrite Forall_forall in Hall.
  rewrite count_char_app.
  rewrite (proj1 (includes_nl_count x)) by (apply Hall; now apply list_elem_of_In).
  reflexivity.
Qed.

Lemma X22_witness :
  text_lines EmptyString (bullets (valueProps (buildStrategy full_launch)))
  = map (fun s => "? " +:+ s) (valueProps (buildStrategy full_launch)).
Proof.
  apply (proj2 (X22_bullets_lines (valueProps (buildStrategy full_launch))
                  ltac:(repeat constructor))).
  discriminate.
Defined.

(** ** The export of the pipeline's calendar *)

Section PipelineExport.
Context {U : UrlApi}.

(** X23. The calendar of [buildCalendar] cannot be exported unless it
    is empty. With a duration of zero days or more the Website event of
    day 0 is in the calendar, whatever the channels and the assets, and
    [buildIcs] and [buildExportBundle] raise a [TypeError] on it; with a
    negative duration the calendar is empty and the bundle is built,
    with no event in it. *)
Theorem X23_pipeline_export input strategy assets :
  schedulable input assets →
  ∃ kept,
    buildCalendar input strategy assets = Ok kept ∧
    (0 <= durationDays input →
       (∃ ev, head kept = Some ev ∧ CalendarEvent.channel ev = "Website") ∧
       buildIcs kept = Throw TypeError ∧
       buildExportBundle input strategy assets kept = Throw TypeError) ∧
    (durationDays input < 0 →
       kept = [] ∧
       ∃ b, buildExportBundle input strategy assets kept = Ok b ∧
            bundle_calendar b = []).
Proof.
  intros (ms & Hstart & Hsch).
  eexists. split; [apply (buildCalendar_ok _ _ _ ms Hstart Hsch) |].
  split.
  - intros Hd. unfold spec_schedule. cbn [app List.filter offset].
    destruct (Z.leb_spec 0 (durationDays input)) as [_ | Hlt]; [| lia].
    cbn [map]. split; [eexists; split; reflexivity |].
    split; reflexivity.
  - intros Hd. rewrite filter_none.
    + split; [reflexivity |]. eexists. split; reflexivity.
    + intros sl Hin. apply Z.leb_gt.
      pose proof (schedule_offsets input assets sl Hin). lia.
Qed.

End PipelineExport.

Lemma X23_witness :
  ∃ kept,
    buildCalendar (U := SimpleUrl.api) full_launch (buildStrategy full_launch)
      (buildAssets full_launch (buildStrategy full_launch)) = Ok kept ∧
    (0 <= durationDays full_launch →
       (∃ ev, head kept = Some ev ∧ CalendarEvent.channel ev = "Website") ∧
       buildIcs kept = Throw TypeError ∧
       buildExportBundle full_launch (buildStrategy full_launch)
         (buildAssets full_launch (buildStrategy full_launch)) kept
       = Throw TypeError) ∧
    (durationDays full_launch < 0 →
       kept = [] ∧
       ∃ b, buildExportBundle full_launch (buildStrategy full_launch)
              (buildAssets full_launch (buildStrategy full_launch)) kept = Ok b ∧
            bundle_calendar b = []).
Proof.
  apply (X23_pipeline_export (U := SimpleUrl.api) full_launch
           (buildStrategy full_launch)
           (buildAssets full_launch (buildStrategy full_launch))).
  exact full_launch_schedulable.
Defined.
